(** * Request validation of the Fiber full-stack template

    A shallow embedding of the Go packages [internal/validation]
    (the [Validator] wrapper, its three custom rules and the
    [ValidationErrors] report) and [internal/middleware] (the request-scope
    adapter: [ValidateBody], [ValidateQuery], [ValidateParams],
    [ValidateHeaders], the typed retrieval helpers and [ValidatePartial]),
    followed by their callers and neighbours: the error envelope of
    [internal/utils], the configuration of [internal/config], the health
    handlers of [internal/handlers] and the toggled middleware.

    Go strings are byte strings: they are Rocq [string]s, whose characters
    are 8-bit [ascii] values.  [len] counts bytes, indexing reads a byte and
    [for _, c := range s] decodes UTF-8 and yields runes.  Go maps with
    string keys are [gmap string _]; a nil map is [None]. *)

From Stdlib Require Import ZArith Lia List Bool Ascii String.
From stdpp Require Import base option list gmap strings.

Local Open Scope string_scope.
Local Open Scope Z_scope.

(** ** Go strings: bytes, [len], indexing and [range] *)

Module gostring.

Definition rune := Z.

(** [utf8.RuneError], the replacement character U+FFFD. *)
Definition RuneError : rune := 65533.

Definition byte_of (a : ascii) : Z := Z.of_nat (nat_of_ascii a).

(** The bytes of a string, in order. *)
Definition bytes (s : string) : list Z := map byte_of (list_ascii_of_string s).

(** [len(s)]: the number of bytes. *)
Definition len (s : string) : Z := Z.of_nat (String.length s).

(** Classification of a leading byte, as the table [first] of
    [unicode/utf8]: ASCII, invalid, or the start of a sequence of [sz] bytes
    whose second byte must lie in [lo..hi]. *)
Inductive lead :=
| AS
| XX
| Seq (sz : nat) (lo hi : Z).

Definition first (b : Z) : lead :=
  if b <? 128 then AS
  else if b <? 194 then XX
  else if b <? 224 then Seq 2 128 191
  else if b =? 224 then Seq 3 160 191
  else if b <? 237 then Seq 3 128 191
  else if b =? 237 then Seq 3 128 159
  else if b <? 240 then Seq 3 128 191
  else if b =? 240 then Seq 4 144 191
  else if b <? 244 then Seq 4 128 191
  else if b =? 244 then Seq 4 128 143
  else XX.

(** A continuation byte lies in [locb..hicb]. *)
Definition cont (b : Z) : bool := (128 <=? b) && (b <=? 191).

Definition rune2 (b0 b1 : Z) : rune :=
  Z.lor (Z.shiftl (Z.land b0 31) 6) (Z.land b1 63).

Definition rune3 (b0 b1 b2 : Z) : rune :=
  Z.lor (Z.lor (Z.shiftl (Z.land b0 15) 12) (Z.shiftl (Z.land b1 63) 6))
        (Z.land b2 63).

Definition rune4 (b0 b1 b2 b3 : Z) : rune :=
  Z.lor (Z.lor (Z.lor (Z.shiftl (Z.land b0 7) 18) (Z.shiftl (Z.land b1 63) 12))
               (Z.shiftl (Z.land b2 63) 6))
        (Z.land b3 63).

(** The runes that [for _, c := range s] yields over the bytes [s]: each
    step decodes one UTF-8 sequence; a byte that starts no valid sequence
    yields [RuneError] and the loop advances by one byte. *)
Fixpoint decode (s : list Z) : list rune :=
  match s with
  | [] => []
  | b0 :: t0 =>
      match first b0 with
      | AS => b0 :: decode t0
      | XX => RuneError :: decode t0
      | Seq sz lo hi =>
          match t0 with
          | [] => RuneError :: decode t0
          | b1 :: t1 =>
              if negb ((lo <=? b1) && (b1 <=? hi)) then RuneError :: decode t0
              else if (sz <=? 2)%nat then rune2 b0 b1 :: decode t1
              else
                match t1 with
                | [] => RuneError :: decode t0
                | b2 :: t2 =>
                    if negb (cont b2) then RuneError :: decode t0
                    else if (sz <=? 3)%nat then rune3 b0 b1 b2 :: decode t2
                    else
                      match t2 with
                      | [] => RuneError :: decode t0
                      | b3 :: t3 =>
                          if negb (cont b3) then RuneError :: decode t0
                          else rune4 b0 b1 b2 b3 :: decode t3
                      end
                end
          end
      end
  end.

Definition runes (s : string) : list rune := decode (bytes s).

(** [s[0]] and [s[len(s)-1]]; [None] stands for the index-out-of-range
    panic on the empty string. *)
Definition first_byte (s : string) : option Z := head (bytes s).
Definition last_byte (s : string) : option Z := last (bytes s).

(** [strings.ContainsRune(s, r)]. *)
Definition ContainsRune (s : string) (r : rune) : bool :=
  existsb (Z.eqb r) (runes s).

End gostring.

(** ** The validation library, as far as the source drives it

    [github.com/go-playground/validator/v10] is imported by the source and
    is not part of it.  The model covers what the source calls
    ([Struct], [Var], [RegisterTagNameFunc], the [FieldError] accessors) on
    flat structs of scalar fields, exported or not.  A [validate] tag is kept in the
    parsed form the library caches: the ordered chain of its rules, each
    with its name, its parameter and the function registered under the
    name. *)

Module go_validator.
Import gostring.

(** A field value ([reflect.Value] of a scalar kind). *)
Inductive value :=
| VString (s : string)
| VInt (n : Z).

(** [reflect.Value.String]: the string itself for a string, and a
    placeholder naming the kind otherwise. *)
Definition String_of (v : value) : string :=
  match v with
  | VString s => s
  | VInt _ => "<int Value>"
  end.

(** The library's [hasValue]: the value is not the zero value of its
    type. *)
Definition hasValue (v : value) : bool :=
  match v with
  | VString s => negb (len s =? 0)
  | VInt n => negb (n =? 0)
  end.

(** [validator.FieldLevel]: what a rule function sees. *)
Record FieldLevel := mkFieldLevel {
  fl_Field : value;
  fl_Param : string;
  fl_Parent : list (string * value)
}.

(** [validator.Func]. *)
Definition Func := FieldLevel -> bool.

(** One element of a parsed tag chain. *)
Inductive cTag :=
| OmitEmpty
| Rule (tag param : string) (fn : Func).

(** [reflect.StructField]: the Go identifier, the package path that
    qualifies the name of an unexported field (empty for an exported one),
    the [json] tag and the (parsed) [validate] tag. *)
Record StructField := mkStructField {
  Name : string;
  PkgPath : string;
  json_tag : string;
  validate_tag : list cTag
}.

(** [StructField.IsExported]. *)
Definition IsExported (fld : StructField) : bool :=
  String.eqb (PkgPath fld) "".

(** A struct value: its type name and its fields with their values, in
    declaration order. *)
Record StructValue := mkStruct {
  type_name : string;
  fields : list (StructField * value)
}.

(** A value of type [interface{}] as the source receives it: the nil
    interface, a struct, a pointer to a struct, a nil pointer of a struct
    pointer type, or a scalar. *)
Inductive Model :=
| MNil
| MStruct (s : StructValue)
| MPtr (s : StructValue)
| MNilPtr (T : string)
| MValue (v : value).

(** [validator.FieldError] with the accessors the source reads. *)
Record FieldError := mkFieldError {
  Field : string;
  Tag : string;
  Param : string
}.

(** The two error types [Struct] and [Var] return. *)
Inductive verror :=
| ValidationErrors (errs : list FieldError)
| InvalidValidationError (ty : option string).

(** [InvalidValidationError.Error]. *)
Definition InvalidValidationError_Error (ty : option string) : string :=
  match ty with
  | None => "validator: (nil)"
  | Some t => "validator: (nil " ++ t ++ ")"
  end.

(** The instance [validator.Validate]: of its state only the registered
    tag-name function matters once tags are parsed. *)
Record Validate := mkValidate {
  tagNameFunc : option (StructField -> string)
}.

Definition New : Validate := mkValidate None.

Definition RegisterTagNameFunc (v : Validate) (fn : StructField -> string) : Validate :=
  mkValidate (Some fn).

(** The name a field is reported under: the registered function's answer
    when it is not empty, the Go identifier otherwise. *)
Definition altName (v : Validate) (fld : StructField) : string :=
  match tagNameFunc v with
  | Some fn => if len (fn fld) =? 0 then Name fld else fn fld
  | None => Name fld
  end.

(** Modelled from the spec: the rule-evaluation core of the library
    ([traverseField]), which is not under src/.  The rules of a field run in
    declaration order; the first failing rule appends one [FieldError] and
    ends the field; [omitempty] ends the field without an error when the
    value is the zero value. *)
Fixpoint traverseField (parent : list (string * value)) (name : string)
    (current : value) (ct : list cTag) : list FieldError :=
  match ct with
  | [] => []
  | OmitEmpty :: rest =>
      if hasValue current then traverseField parent name current rest else []
  | Rule tag param fn :: rest =>
      if fn (mkFieldLevel current param parent)
      then traverseField parent name current rest
      else [mkFieldError name tag param]
  end.

Definition parent_of (s : StructValue) : list (string * value) :=
  map (fun fv => (Name (fst fv), snd fv)) (fields s).

(** Modelled from the spec: the library's walk over the fields of a struct,
    appending the errors of each field in declaration order.  The library
    passes over an unexported field without reading its tag. *)
Definition validateStruct (v : Validate) (s : StructValue) : list FieldError :=
  flat_map (fun fv =>
              if negb (IsExported (fst fv)) then []
              else traverseField (parent_of s) (altName v (fst fv)) (snd fv)
                     (validate_tag (fst fv)))
           (fields s).

Definition type_string (m : Model) : option string :=
  match m with
  | MNil => None
  | MStruct s => Some (type_name s)
  | MPtr s => Some ("*" ++ type_name s)
  | MNilPtr T => Some ("*" ++ T)
  | MValue (VString _) => Some "string"
  | MValue (VInt _) => Some "int"
  end.

(** Modelled from the spec: [Validate.Struct].  A struct or a pointer to
    one is walked; anything else, a nil pointer included, is refused with
    an [InvalidValidationError]; no error at all is the nil result. *)
Definition Struct (v : Validate) (s : Model) : option verror :=
  match s with
  | MStruct st | MPtr st =>
      match validateStruct v st with
      | [] => None
      | errs => Some (ValidationErrors errs)
      end
  | _ => Some (InvalidValidationError (type_string s))
  end.

(** Modelled from the spec: [Validate.Var].  It receives a bare value and
    a tag, no struct field: the same core runs with the library's unnamed
    default field, so the [FieldError] it reports has the empty field
    name.  An empty tag validates nothing. *)
Definition Var (v : Validate) (field : value) (tag : list cTag) : option verror :=
  match tag with
  | [] => None
  | _ =>
      match traverseField [] "" field tag with
      | [] => None
      | errs => Some (ValidationErrors errs)
      end
  end.

End go_validator.

(** ** Package validation: the custom rules *)

Module validation.
Import gostring go_validator.

(** The four flags of the loop of [validatePassword]. *)
Record pw_flags := PwFlags {
  hasUpper : bool;
  hasLower : bool;
  hasNumber : bool;
  hasSpecial : bool
}.

Definition pw_symbols : string := "!@#$%^&*()_+-=[]{}|;:,.<>?".

(** One iteration of the loop: the [switch] takes the first case that
    holds. *)
Definition pw_step (f : pw_flags) (char : rune) : pw_flags :=
  if (65 <=? char) && (char <=? 90) then
    PwFlags true (hasLower f) (hasNumber f) (hasSpecial f)
  else if (97 <=? char) && (char <=? 122) then
    PwFlags (hasUpper f) true (hasNumber f) (hasSpecial f)
  else if (48 <=? char) && (char <=? 57) then
    PwFlags (hasUpper f) (hasLower f) true (hasSpecial f)
  else if ContainsRune pw_symbols char then
    PwFlags (hasUpper f) (hasLower f) (hasNumber f) true
  else f.

(** [validatePassword]. *)
Definition validatePassword (fl : FieldLevel) : bool :=
  let password := String_of (fl_Field fl) in
  if len password <? 8 then false
  else
    let f := fold_left pw_step (runes password) (PwFlags false false false false) in
    hasUpper f && hasLower f && hasNumber f && hasSpecial f.

Definition username_char (char : rune) : bool :=
  ((97 <=? char) && (char <=? 122)) ||
  ((65 <=? char) && (char <=? 90)) ||
  ((48 <=? char) && (char <=? 57)) ||
  (char =? 95) || (char =? 45).

(** The loop of [validateUsername] and [validateSlug]: return false at the
    first rune outside the class. *)
Fixpoint all_runes (ok : rune -> bool) (rs : list rune) : bool :=
  match rs with
  | [] => true
  | char :: rest => if negb (ok char) then false else all_runes ok rest
  end.

(** [validateUsername]. *)
Definition validateUsername (fl : FieldLevel) : bool :=
  let username := String_of (fl_Field fl) in
  if (len username <? 3) || (30 <? len username) then false
  else all_runes username_char (runes username).

Definition slug_char (char : rune) : bool :=
  ((97 <=? char) && (char <=? 122)) ||
  ((48 <=? char) && (char <=? 57)) ||
  (char =? 45).

(** [validateSlug].  The two index expressions are reached only on a
    non-empty string, so they cannot panic; [None] is kept for the shape of
    the code and answers false. *)
Definition validateSlug (fl : FieldLevel) : bool :=
  let slug := String_of (fl_Field fl) in
  if len slug =? 0 then false
  else if negb (all_runes slug_char (runes slug)) then false
  else
    match first_byte slug, last_byte slug with
    | Some b0, Some bn => negb (b0 =? 45) && negb (bn =? 45)
    | _, _ => false
    end.


(** *** The wrapper and the error report *)

(** [ValidationErrors]: the field-to-message map; [None] is the nil map. *)
Record ValidationErrors := mkValidationErrors {
  Errors : option (gmap string string)
}.

(** The dynamic types an [error] of the source can have:
    a pointer to [ValidationErrors], or another error, of which only the text is
    read. *)
Inductive other_error :=
| InvalidValidation (ty : option string)
| Errorf (msg : string).

Inductive error :=
| EValidation (ve : ValidationErrors)
| EOther (e : other_error).

Definition other_Error (e : other_error) : string :=
  match e with
  | InvalidValidation ty => InvalidValidationError_Error ty
  | Errorf msg => msg
  end.

(** [Validator] wraps the library instance. *)
Record Validator := mkValidator {
  validate : go_validator.Validate
}.

(** [strings.SplitN(s, ",", 2)[0]]: the text before the first comma. *)
Fixpoint before_comma (s : string) : string :=
  match s with
  | EmptyString => EmptyString
  | String c rest =>
      if Ascii.eqb c ","%char then EmptyString else String c (before_comma rest)
  end.

(** The field name extractor registered by [NewValidator]. *)
Definition json_name (fld : StructField) : string :=
  let name := before_comma (json_tag fld) in
  if String.eqb name "" then Name fld else name.

(** The rules [NewValidator] registers.  The names are not empty and the
    functions are not nil, so no registration fails and the early returns
    are not taken. *)
Definition custom_validations : list (string * Func) :=
  [("password", validatePassword);
   ("username", validateUsername);
   ("slug", validateSlug)].

(** [NewValidator]. *)
Definition NewValidator : Validator :=
  mkValidator (RegisterTagNameFunc New json_name).

(** [getErrorMessage]. *)
Definition getErrorMessage (e : FieldError) : string :=
  let tag := Tag e in
  if String.eqb tag "required" then Field e ++ " is required"
  else if String.eqb tag "email" then Field e ++ " must be a valid email address"
  else if String.eqb tag "min" then
    Field e ++ " must be at least " ++ Param e ++ " characters"
  else if String.eqb tag "max" then
    Field e ++ " must be at most " ++ Param e ++ " characters"
  else if String.eqb tag "len" then
    Field e ++ " must be exactly " ++ Param e ++ " characters"
  else if String.eqb tag "numeric" then Field e ++ " must contain only numbers"
  else if String.eqb tag "alphanum" then
    Field e ++ " must contain only letters and numbers"
  else if String.eqb tag "alpha" then Field e ++ " must contain only letters"
  else if String.eqb tag "url" then Field e ++ " must be a valid URL"
  else if String.eqb tag "uuid" then Field e ++ " must be a valid UUID"
  else if String.eqb tag "password" then
    "password must be at least 8 characters and contain uppercase, lowercase, number, and special character"
  else if String.eqb tag "username" then
    "username must be 3-30 characters, alphanumeric with optional underscores and hyphens"
  else if String.eqb tag "slug" then
    "slug must contain only lowercase letters, numbers, and hyphens"
  else if String.eqb tag "oneof" then Field e ++ " must be one of: " ++ Param e
  else if String.eqb tag "gte" then
    Field e ++ " must be greater than or equal to " ++ Param e
  else if String.eqb tag "lte" then
    Field e ++ " must be less than or equal to " ++ Param e
  else if String.eqb tag "gt" then Field e ++ " must be greater than " ++ Param e
  else if String.eqb tag "lt" then Field e ++ " must be less than " ++ Param e
  else Field e ++ " is invalid".

(** The loop of [formatValidationError]: each error overwrites the entry of
    its field name. *)
Definition formattedErrors (errs : list FieldError) : gmap string string :=
  fold_left (fun m e => <[Field e := getErrorMessage e]> m) errs ∅.

(** [formatValidationError]. *)
Definition formatValidationError (v : Validator) (err : verror) : error :=
  match err with
  | go_validator.ValidationErrors validationErrors =>
      EValidation (mkValidationErrors (Some (formattedErrors validationErrors)))
  | InvalidValidationError ty => EOther (InvalidValidation ty)
  end.

(** [Validate]: [None] is the nil error. *)
Definition Validate (v : Validator) (s : Model) : option error :=
  match Struct (validate v) s with
  | Some err => Some (formatValidationError v err)
  | None => None
  end.

(** [ValidateVar]. *)
Definition ValidateVar (v : Validator) (field : value) (tag : list cTag) : option error :=
  match Var (validate v) field tag with
  | Some err => Some (formatValidationError v err)
  | None => None
  end.

(** [GetFieldError]: reading a missing key of a Go map gives the empty
    string. *)
Definition GetFieldError (ve : ValidationErrors) (field : string) : string :=
  match Errors ve with
  | None => ""
  | Some m => default "" (m !! field)
  end.

(** [HasFieldError]. *)
Definition HasFieldError (ve : ValidationErrors) (field : string) : bool :=
  match Errors ve with
  | None => false
  | Some m => bool_decide (is_Some (m !! field))
  end.

(** [GetAllErrors]: a fresh empty map stands in for the nil one. *)
Definition GetAllErrors (ve : ValidationErrors) : option (gmap string string) :=
  match Errors ve with
  | None => Some ∅
  | Some m => Some m
  end.

(** [len(m)] of a possibly nil map. *)
Definition map_len (m : option (gmap string string)) : Z :=
  match m with
  | None => 0
  | Some m => Z.of_nat (size m)
  end.

(** [strings.Join]. *)
Fixpoint Join (elems : list string) (sep : string) : string :=
  match elems with
  | [] => ""
  | [e] => e
  | e :: rest => e ++ sep ++ Join rest sep
  end.

Section Error.

(** Go leaves the order in which [range] visits a map unspecified; the
    order of one visit is a parameter. *)
Variable range_order : gmap string string -> list (string * string).

(** [ValidationErrors.Error]. *)
Definition Error (ve : ValidationErrors) : string :=
  if map_len (Errors ve) =? 0 then "validation failed"
  else
    let messages :=
      map (fun fm => fst fm ++ ": " ++ snd fm)
          (match Errors ve with
           | None => []
           | Some m => range_order m
           end) in
    Join messages "; ".

End Error.

End validation.

(** ** Package middleware: the request-scope adapter *)

Module middleware.
Import gostring go_validator validation.

Definition StatusBadRequest : Z := 400.
Definition StatusUnprocessableEntity : Z := 422.
Definition StatusInternalServerError : Z := 500.

(** [fiber.Ctx]: the raw request and the per-request store written by
    [c.Locals(key, value)]. *)
Record Ctx := mkCtx {
  raw : string;
  locals : gmap string Model
}.

(** [c.Locals(key, value)]. *)
Definition Locals_set (c : Ctx) (key : string) (value : Model) : Ctx :=
  mkCtx (raw c) (<[key := value]> (locals c)).

(** [c.Locals(key)]: the stored value, the nil interface when there is
    none. *)
Definition Locals (c : Ctx) (key : string) : Model :=
  default MNil (locals c !! key).

(** The [details] entry of a response. *)
Inductive details :=
| DText (s : string)
| DMap (m : option (gmap string string)).

(** [c.Status(code).JSON(fiber.Map{...})]. *)
Record Response := mkResponse {
  status : Z;
  error_ : string;
  message : string;
  details_ : option details
}.

(** What a handler does: answer, or hand the context to the next
    handler. *)
Inductive outcome :=
| Respond (r : Response)
| Next (c : Ctx).

(** The external collaborators.  A parser fills the object the model points
    to and returns it, or fails with the text of its error. *)
Record External := mkExternal {
  BodyParser : Ctx -> Model -> string + Model;
  QueryParser : Ctx -> Model -> string + Model;
  ParamsParser : Ctx -> Model -> string + Model;
  GetReqHeaders : Ctx -> list (string * list string);
  ToLower : string -> string;
  Marshal : gmap string string -> string + string;
  Unmarshal : string -> Model -> string + Model
}.

(** [ValidationMiddleware]. *)
Record ValidationMiddleware := mkValidationMiddleware {
  validator_ : Validator
}.

(** [NewValidationMiddleware]. *)
Definition NewValidationMiddleware : ValidationMiddleware :=
  mkValidationMiddleware NewValidator.

(** [formatValidationErrors]. *)
Definition formatValidationErrors (vm : ValidationMiddleware) (err : error)
  : option (gmap string string) :=
  match err with
  | EValidation validationErrors => GetAllErrors validationErrors
  | EOther e => Some {["general" := other_Error e]}
  end.

Section Handlers.

Variable ext : External.
Variable vm : ValidationMiddleware.

(** [ValidateBody]. *)
Definition ValidateBody (model : Model) (c : Ctx) : outcome :=
  match BodyParser ext c model with
  | inl err =>
      Respond (mkResponse StatusBadRequest "Invalid request body"
                 "Failed to parse request body" (Some (DText err)))
  | inr model =>
      match Validate (validator_ vm) model with
      | Some err =>
          Respond (mkResponse StatusUnprocessableEntity "Validation failed"
                     "Request body validation failed"
                     (Some (DMap (formatValidationErrors vm err))))
      | None => Next (Locals_set c "validated_body" model)
      end
  end.

(** [ValidateQuery]. *)
Definition ValidateQuery (model : Model) (c : Ctx) : outcome :=
  match QueryParser ext c model with
  | inl err =>
      Respond (mkResponse StatusBadRequest "Invalid query parameters"
                 "Failed to parse query parameters" (Some (DText err)))
  | inr model =>
      match Validate (validator_ vm) model with
      | Some err =>
          Respond (mkResponse StatusBadRequest "Validation failed"
                     "Query parameter validation failed"
                     (Some (DMap (formatValidationErrors vm err))))
      | None => Next (Locals_set c "validated_query" model)
      end
  end.

(** [ValidateParams]. *)
Definition ValidateParams (model : Model) (c : Ctx) : outcome :=
  match ParamsParser ext c model with
  | inl err =>
      Respond (mkResponse StatusBadRequest "Invalid route parameters"
                 "Failed to parse route parameters" (Some (DText err)))
  | inr model =>
      match Validate (validator_ vm) model with
      | Some err =>
          Respond (mkResponse StatusBadRequest "Validation failed"
                     "Route parameter validation failed"
                     (Some (DMap (formatValidationErrors vm err))))
      | None => Next (Locals_set c "validated_params" model)
      end
  end.

(** The first loop of [ValidateHeaders]: the first value of every header
    that has one, under the lower-cased key. *)
Definition headerMap_of (headers : list (string * list string)) : gmap string string :=
  fold_left (fun headerMap kv =>
               match snd kv with
               | [] => headerMap
               | v0 :: _ => <[ToLower ext (fst kv) := v0]> headerMap
               end)
            headers ∅.

(** [ValidateHeaders]. *)
Definition ValidateHeaders (model : Model) (c : Ctx) : outcome :=
  let headers := GetReqHeaders ext c in
  let headerMap := headerMap_of headers in
  match Marshal ext headerMap with
  | inl _ =>
      Respond (mkResponse StatusInternalServerError "Internal server error"
                 "Failed to process headers" None)
  | inr jsonData =>
      match Unmarshal ext jsonData model with
      | inl err =>
          Respond (mkResponse StatusBadRequest "Invalid headers"
                     "Failed to parse headers" (Some (DText err)))
      | inr model =>
          match Validate (validator_ vm) model with
          | Some err =>
              Respond (mkResponse StatusBadRequest "Validation failed"
                         "Header validation failed"
                         (Some (DMap (formatValidationErrors vm err))))
          | None => Next (Locals_set c "validated_headers" model)
          end
      end
  end.

(** [ValidateCustom]. *)
Definition ValidateCustom (validatorFunc : Ctx -> option error) (c : Ctx) : outcome :=
  match validatorFunc c with
  | Some err =>
      Respond (mkResponse StatusUnprocessableEntity "Validation failed"
                 "Custom validation failed"
                 (Some (DMap (formatValidationErrors vm err))))
  | None => Next c
  end.

End Handlers.

(** The type assertion of [x] to pointer-to-[T]: it holds exactly when the
    dynamic type of [x] is that pointer type, and gives the pointer, which
    is [None] for the nil pointer. *)
Definition assert_ptr (T : string) (x : Model) : option StructValue * bool :=
  match x with
  | MPtr s => if String.eqb (type_name s) T then (Some s, true) else (None, false)
  | MNilPtr T' => if String.eqb T' T then (None, true) else (None, false)
  | _ => (None, false)
  end.

(** [GetValidatedBody], at the type parameter [T]. *)
Definition GetValidatedBody (T : string) (c : Ctx) : option StructValue * bool :=
  match assert_ptr T (Locals c "validated_body") with
  | (model, true) => (model, true)
  | _ => (None, false)
  end.

(** [GetValidatedQuery]. *)
Definition GetValidatedQuery (T : string) (c : Ctx) : option StructValue * bool :=
  match assert_ptr T (Locals c "validated_query") with
  | (model, true) => (model, true)
  | _ => (None, false)
  end.

(** [GetValidatedParams]. *)
Definition GetValidatedParams (T : string) (c : Ctx) : option StructValue * bool :=
  match assert_ptr T (Locals c "validated_params") with
  | (model, true) => (model, true)
  | _ => (None, false)
  end.

(** [GetValidatedHeaders]. *)
Definition GetValidatedHeaders (T : string) (c : Ctx) : option StructValue * bool :=
  match assert_ptr T (Locals c "validated_headers") with
  | (model, true) => (model, true)
  | _ => (None, false)
  end.

(** [ValidateField]. *)
Definition ValidateField (vm : ValidationMiddleware) (fieldName : string)
    (value : value) (tag : list cTag) : option error :=
  ValidateVar (validator_ vm) value tag.

(** [t.FieldByName] and [v.FieldByName] together: the declaration and the
    value of the field with that Go identifier. *)
Fixpoint FieldByName (fs : list (StructField * value)) (fieldName : string)
  : option (StructField * value) :=
  match fs with
  | [] => None
  | fv :: rest =>
      if String.eqb (Name (fst fv)) fieldName then Some fv
      else FieldByName rest fieldName
  end.

(** What a call does: it returns a value, or it panics. *)
Inductive call (A : Type) :=
| Returns (a : A)
| Panics.

Arguments Returns {A} a.
Arguments Panics {A}.

(** The body of the loop of [ValidatePartial] for one requested name: the
    error map it leaves, or [None] when it panics.  [FieldByName] finds
    unexported fields too, and [fieldValue.Interface()] panics on the value
    of one; the call is reached only when the field has a validate tag. *)
Definition partial_step (vm : ValidationMiddleware) (v : StructValue)
    (errors : gmap string string) (fieldName : string)
  : option (gmap string string) :=
  match FieldByName (fields v) fieldName with
  | None => Some (<[fieldName := "field not found"]> errors)
  | Some (field, fieldValue) =>
      match validate_tag field with
      | [] => Some errors
      | tag =>
          if negb (IsExported field) then None
          else
            match ValidateVar (validator_ vm) fieldValue tag with
            | Some (EValidation validationErrors) =>
                let msg := GetFieldError validationErrors fieldName in
                if String.eqb msg "" then Some errors
                else Some (<[fieldName := msg]> errors)
            | Some (EOther e) => Some (<[fieldName := other_Error e]> errors)
            | None => Some errors
            end
      end
  end.

(** The loop of [ValidatePartial] over the requested names, in order; a
    panic ends it. *)
Fixpoint partial_loop (vm : ValidationMiddleware) (v : StructValue)
    (fields : list string) (errors : gmap string string)
  : option (gmap string string) :=
  match fields with
  | [] => Some errors
  | fieldName :: rest =>
      match partial_step vm v errors fieldName with
      | Some errors => partial_loop vm v rest errors
      | None => None
      end
  end.

(** [ValidatePartial]. *)
Definition ValidatePartial (vm : ValidationMiddleware) (model : Model)
    (fields : list string) : call (option error) :=
  if (length fields =? 0)%nat then Returns (Validate (validator_ vm) model)
  else
    match model with
    | MStruct v | MPtr v =>
        match partial_loop vm v fields ∅ with
        | None => Panics
        | Some errors =>
            if (0 <? size errors)%nat
            then Returns (Some (EValidation (mkValidationErrors (Some errors))))
            else Returns None
        end
    | _ =>
        Returns (Some (EOther (Errorf "model must be a struct or pointer to struct")))
    end.

End middleware.

(** ** Package utils: the error envelope *)

(** [fiber.Error]: a status code and a message, which is also the text of
    its [Error] method. *)
Module fiber.

Record Error := mkError {
  Code : Z;
  Message : string
}.

(** A value of a JSON object built with [fiber.Map]: a string, an integer
    or a time. *)
Inductive jvalue :=
| JString (s : string)
| JInt (n : Z)
| JTime (t : Z).

Definition StatusBadRequest : Z := 400.
Definition StatusUnauthorized : Z := 401.
Definition StatusForbidden : Z := 403.
Definition StatusNotFound : Z := 404.
Definition StatusConflict : Z := 409.
Definition StatusUnprocessableEntity : Z := 422.
Definition StatusInternalServerError : Z := 500.
Definition StatusServiceUnavailable : Z := 503.

End fiber.

Module utils.
Import gostring go_validator validation.

(** The dynamic types of an [error] this package tells apart: a pointer to
    [validation.ValidationErrors], a pointer to [fiber.Error], and any other
    error, of which only the text is read. *)
Inductive error :=
| Validation (ve : ValidationErrors)
| Fiber (e : fiber.Error)
| Other (text : string).

(** [err.Error()] on an error that is not a [ValidationErrors]. *)
Definition plain_Error (e : fiber.Error + string) : string :=
  match e with
  | inl e => fiber.Message e
  | inr text => text
  end.

(** [ValidationErrorResponse]; [Details] is [None] for the nil map. *)
Record ValidationErrorResponse := mkResponse {
  Error : string;
  Message : string;
  Details : option (gmap string string);
  Status : Z
}.

(** [ValidationErrorBuilder]: the response it points to.  Every setter
    updates that response and returns the builder. *)
Record ValidationErrorBuilder := mkBuilder {
  response : ValidationErrorResponse
}.

(** [NewValidationErrorBuilder]. *)
Definition NewValidationErrorBuilder : ValidationErrorBuilder :=
  mkBuilder (mkResponse "Validation failed" "Request validation failed" None
               fiber.StatusUnprocessableEntity).

(** [WithError]. *)
Definition WithError (b : ValidationErrorBuilder) (error : string) : ValidationErrorBuilder :=
  mkBuilder (mkResponse error (Message (response b)) (Details (response b))
               (Status (response b))).

(** [WithMessage]. *)
Definition WithMessage (b : ValidationErrorBuilder) (message : string) : ValidationErrorBuilder :=
  mkBuilder (mkResponse (Error (response b)) message (Details (response b))
               (Status (response b))).

(** [WithStatus]. *)
Definition WithStatus (b : ValidationErrorBuilder) (status : Z) : ValidationErrorBuilder :=
  mkBuilder (mkResponse (Error (response b)) (Message (response b))
               (Details (response b)) status).

(** [WithDetails]. *)
Definition WithDetails (b : ValidationErrorBuilder)
    (details : option (gmap string string)) : ValidationErrorBuilder :=
  mkBuilder (mkResponse (Error (response b)) (Message (response b)) details
               (Status (response b))).

(** [WithValidationErrors]. *)
Definition WithValidationErrors (b : ValidationErrorBuilder) (err : error)
  : ValidationErrorBuilder :=
  match err with
  | Validation validationErrors =>
      WithDetails b (GetAllErrors validationErrors)
  | Fiber e => WithDetails b (Some {["general" := plain_Error (inl e)]})
  | Other text => WithDetails b (Some {["general" := plain_Error (inr text)]})
  end.

(** [Build]. *)
Definition Build (b : ValidationErrorBuilder) : ValidationErrorResponse :=
  response b.

(** What [c.Status(code).JSON(body)] sends: the status code and the body,
    a response struct or a [fiber.Map]. *)
Inductive sent :=
| SentResponse (code : Z) (body : ValidationErrorResponse)
| SentMap (code : Z) (body : gmap string fiber.jvalue).

Definition sent_code (s : sent) : Z :=
  match s with
  | SentResponse code _ => code
  | SentMap code _ => code
  end.

(** [Send]. *)
Definition Send (b : ValidationErrorBuilder) : sent :=
  SentResponse (Status (response b)) (response b).

(** [HandleValidationError]. *)
Definition HandleValidationError (err : error) : sent :=
  Send (WithValidationErrors NewValidationErrorBuilder err).

(** [HandleCustomValidationError]. *)
Definition HandleCustomValidationError (field message : string) : sent :=
  Send (WithDetails NewValidationErrorBuilder (Some {[field := message]})).

(** [HandleMultipleValidationErrors]. *)
Definition HandleMultipleValidationErrors (errors : option (gmap string string)) : sent :=
  Send (WithDetails NewValidationErrorBuilder errors).

(** [CreateValidationErrorResponse]. *)
Definition CreateValidationErrorResponse (err : error) : ValidationErrorResponse :=
  Build (WithValidationErrors NewValidationErrorBuilder err).

(** The helper's [GetFieldError]. *)
Definition GetFieldError (err : error) (field : string) : string :=
  match err with
  | Validation validationErrors => validation.GetFieldError validationErrors field
  | _ => ""
  end.

(** The helper's [HasFieldError]. *)
Definition HasFieldError (err : error) (field : string) : bool :=
  match err with
  | Validation validationErrors => validation.HasFieldError validationErrors field
  | _ => false
  end.

Section Format.

(** The order in which one [range] visits a map. *)
Variable range_order : gmap string string -> list (string * string).

(** [FormatValidationErrors]. *)
Definition FormatValidationErrors (err : error) : string :=
  match err with
  | Validation validationErrors =>
      let messages :=
        map (fun fm => fst fm ++ ": " ++ snd fm)
            (match GetAllErrors validationErrors with
             | None => []
             | Some m => range_order m
             end) in
      Join messages "; "
  | Fiber e => plain_Error (inl e)
  | Other text => plain_Error (inr text)
  end.

End Format.

(** What an error handler does with an error: answer, or return the error
    to the next handler. *)
Inductive handled :=
| Answered (s : sent)
| Returned (err : error).

(** The answer both error handlers give to a [fiber.Error] whose code is
    422 or 400. *)
Definition request_error (e : fiber.Error) : sent :=
  Send (WithStatus (WithMessage (WithError NewValidationErrorBuilder "Request Error")
                      (fiber.Message e))
          (fiber.Code e)).

(** [ErrorHandler] of the validation middleware utility. *)
Definition ErrorHandler (err : error) : handled :=
  match err with
  | Validation _ => Answered (HandleValidationError err)
  | Fiber e =>
      if (fiber.Code e =? fiber.StatusUnprocessableEntity) ||
         (fiber.Code e =? fiber.StatusBadRequest)
      then Answered (request_error e)
      else Returned err
  | Other _ => Returned err
  end.

(** The body of the last answer of [GlobalValidationErrorHandler]. *)
Definition internal_error_body : gmap string fiber.jvalue :=
  {[ "error" := fiber.JString "Internal Server Error";
     "message" := fiber.JString "An unexpected error occurred";
     "status" := fiber.JInt fiber.StatusInternalServerError ]}.

(** [GlobalValidationErrorHandler]. *)
Definition GlobalValidationErrorHandler (err : error) : sent :=
  match err with
  | Validation _ => HandleValidationError err
  | Fiber e =>
      if (fiber.Code e =? fiber.StatusUnprocessableEntity) ||
         (fiber.Code e =? fiber.StatusBadRequest)
      then request_error e
      else SentMap fiber.StatusInternalServerError internal_error_body
  | Other _ => SentMap fiber.StatusInternalServerError internal_error_body
  end.

(** The answers of [ValidationResponseBuilder]. *)
Definition status_answer (error message : string) (status : Z) : sent :=
  Send (WithStatus (WithMessage (WithError NewValidationErrorBuilder error) message)
          status).

Definition ValidationError (err : error) : sent :=
  Send (WithValidationErrors NewValidationErrorBuilder err).

Definition BadRequest (message : string) : sent :=
  status_answer "Bad Request" message fiber.StatusBadRequest.

Definition Unauthorized (message : string) : sent :=
  status_answer "Unauthorized" message fiber.StatusUnauthorized.

Definition Forbidden (message : string) : sent :=
  status_answer "Forbidden" message fiber.StatusForbidden.

Definition NotFound (message : string) : sent :=
  status_answer "Not Found" message fiber.StatusNotFound.

Definition Conflict (message : string) : sent :=
  status_answer "Conflict" message fiber.StatusConflict.

Definition InternalServerError (message : string) : sent :=
  status_answer "Internal Server Error" message fiber.StatusInternalServerError.

End utils.

(** ** Package config: the configuration read from the environment *)

Module config.

(** What the package reads from outside: the outcome of [godotenv.Load],
    the environment once the file is loaded ([os.Getenv] gives the empty
    string for an unset variable), and the library functions [strconv.Atoi],
    [time.ParseDuration] ([None] for their errors) and [strings.ToLower]. *)
Inductive LoadError :=
| NotExist
| LoadFailed (text : string).

Record Env := mkEnv {
  godotenv_Load : option LoadError;
  Getenv : string -> string;
  Atoi : string -> option Z;
  ParseDuration : string -> option Z;
  ToLower : string -> string
}.

(** [strconv.ParseBool]. *)
Definition ParseBool (str : string) : option bool :=
  if String.eqb str "1" || String.eqb str "t" || String.eqb str "T" ||
     String.eqb str "TRUE" || String.eqb str "true" || String.eqb str "True"
  then Some true
  else if String.eqb str "0" || String.eqb str "f" || String.eqb str "F" ||
          String.eqb str "FALSE" || String.eqb str "false" || String.eqb str "False"
  then Some false
  else None.

(** [time.Hour], in nanoseconds. *)
Definition Hour : Z := 3600000000000.

Module FeatureFlags.
Record t := mk {
  Database : bool;
  Auth : bool;
  Cache : bool;
  Mail : bool;
  AWS : bool;
  Pusher : bool
}.
End FeatureFlags.

Module SessionConfig.
Record t := mk {
  HTTPOnly : bool;
  SameSite : string;
  Expire : Z
}.
End SessionConfig.

Module JWTConfig.
Record t := mk {
  Expire : Z;
  RefreshExpire : Z
}.
End JWTConfig.

Module MailConfig.
Record t := mk {
  Mailer : string;
  Host : string;
  Port : Z;
  Username : string;
  Password : string;
  Encryption : string;
  FromAddress : string;
  FromName : string
}.
End MailConfig.

Module AWSConfig.
Record t := mk {
  AccessKeyID : string;
  SecretAccessKey : string;
  DefaultRegion : string;
  Bucket : string
}.
End AWSConfig.

Module PusherConfig.
Record t := mk {
  AppID : string;
  AppKey : string;
  AppSecret : string;
  Cluster : string
}.
End PusherConfig.

(** [Config]. *)
Record Config := mkConfig {
  Port : string;
  Host : string;
  AppEnv : string;
  AppURL : string;
  AppName : string;
  CORS : bool;
  Compress : bool;
  CompressLevel : Z;
  Features : FeatureFlags.t;
  DBURL : string;
  AuthType : string;
  AuthSecret : string;
  SessionConfig : SessionConfig.t;
  JWTConfig : JWTConfig.t;
  RedisHost : string;
  RedisPassword : string;
  RedisPort : string;
  MailConfig : MailConfig.t;
  AWSConfig : AWSConfig.t;
  PusherConfig : PusherConfig.t
}.

Section Load.

Variable env : Env.

(** [getEnv]. *)
Definition getEnv (key defaultValue : string) : string :=
  let value := Getenv env key in
  if negb (String.eqb value "") then value else defaultValue.

(** [getEnvAsBool]. *)
Definition getEnvAsBool (key : string) (defaultValue : bool) : bool :=
  let value := Getenv env key in
  if negb (String.eqb value "") then
    match ParseBool value with
    | Some parsed => parsed
    | None => defaultValue
    end
  else defaultValue.

(** [getEnvAsInt]. *)
Definition getEnvAsInt (key : string) (defaultValue : Z) : Z :=
  let value := Getenv env key in
  if negb (String.eqb value "") then
    match Atoi env value with
    | Some parsed => parsed
    | None => defaultValue
    end
  else defaultValue.

(** [getEnvAsDuration]. *)
Definition getEnvAsDuration (key : string) (defaultValue : Z) : Z :=
  let value := Getenv env key in
  if negb (String.eqb value "") then
    match ParseDuration env value with
    | Some parsed => parsed
    | None => defaultValue
    end
  else defaultValue.

(** [LoadConfig]: a missing .env file is not an error, any other failure of
    the load is returned. *)
Definition LoadConfig : LoadError + Config :=
  match godotenv_Load env with
  | Some (LoadFailed text) => inl (LoadFailed text)
  | _ =>
      inr (mkConfig
             (getEnv "PORT" "3000")
             (getEnv "HOST" "localhost")
             (getEnv "APP_ENV" "development")
             (getEnv "APP_URL" "http://localhost:3000")
             (getEnv "APP_NAME" "Fiber App")
             (getEnvAsBool "CORS" true)
             (getEnvAsBool "COMPRESS" true)
             (getEnvAsInt "COMPRESS_LEVEL" 0)
             (FeatureFlags.mk
                (getEnvAsBool "FEATURE_DATABASE" false)
                (getEnvAsBool "FEATURE_AUTH" false)
                (getEnvAsBool "FEATURE_CACHE" false)
                (getEnvAsBool "FEATURE_MAIL" false)
                (getEnvAsBool "FEATURE_AWS" false)
                (getEnvAsBool "FEATURE_PUSHER" false))
             (getEnv "DB_URL" "")
             (getEnv "AUTH" "Disabled")
             (getEnv "AUTH_SECRET" "")
             (SessionConfig.mk
                (getEnvAsBool "SESSION_HTTPONLY" true)
                (getEnv "SESSION_SAMESITE" "lax")
                (getEnvAsDuration "SESSION_EXPIRE" (24 * Hour)))
             (JWTConfig.mk
                (getEnvAsDuration "JWT_EXPIRE" (24 * Hour))
                (getEnvAsDuration "JWT_REFRESH_EXPIRE" (7 * 24 * Hour)))
             (getEnv "REDIS_HOST" "localhost")
             (getEnv "REDIS_PASSWORD" "")
             (getEnv "REDIS_PORT" "6379")
             (MailConfig.mk
                (getEnv "MAIL_MAILER" "smtp")
                (getEnv "MAIL_HOST" "mailpit")
                (getEnvAsInt "MAIL_PORT" 1025)
                (getEnv "MAIL_USERNAME" "")
                (getEnv "MAIL_PASSWORD" "")
                (getEnv "MAIL_ENCRYPTION" "")
                (getEnv "MAIL_FROM_ADDRESS" "hello@example.com")
                (getEnv "MAIL_FROM_NAME" "Fiber App"))
             (AWSConfig.mk
                (getEnv "AWS_ACCESS_KEY_ID" "")
                (getEnv "AWS_SECRET_ACCESS_KEY" "")
                (getEnv "AWS_DEFAULT_REGION" "us-east-1")
                (getEnv "AWS_BUCKET" ""))
             (PusherConfig.mk
                (getEnv "PUSHER_APP_ID" "")
                (getEnv "PUSHER_APP_KEY" "")
                (getEnv "PUSHER_APP_SECRET" "")
                (getEnv "PUSHER_APP_CLUSTER" "mt1")))
  end.

(** [IsDevelopment], [IsProduction] and [IsTesting], on a config that is
    not nil. *)
Definition IsDevelopment (c : Config) : bool :=
  String.eqb (ToLower env (AppEnv c)) "development".

Definition IsProduction (c : Config) : bool :=
  String.eqb (ToLower env (AppEnv c)) "production".

Definition IsTesting (c : Config) : bool :=
  String.eqb (ToLower env (AppEnv c)) "testing".

(** The feature predicates; [None] is the nil config. *)
Definition DatabaseEnabled (c : option Config) : bool :=
  match c with
  | None => false
  | Some c => FeatureFlags.Database (Features c) && negb (String.eqb (DBURL c) "")
  end.

Definition CacheEnabled (c : option Config) : bool :=
  match c with
  | None => false
  | Some c => FeatureFlags.Cache (Features c) && negb (String.eqb (RedisHost c) "")
  end.

Definition AuthEnabled (c : option Config) : bool :=
  match c with
  | None => false
  | Some c =>
      if negb (FeatureFlags.Auth (Features c)) then false
      else negb (String.eqb (ToLower env (AuthType c)) "disabled") &&
           negb (String.eqb (AuthSecret c) "")
  end.

Definition MailEnabled (c : option Config) : bool :=
  match c with
  | None => false
  | Some c =>
      FeatureFlags.Mail (Features c) &&
      negb (String.eqb (MailConfig.Host (MailConfig c)) "")
  end.

Definition AWSEnabled (c : option Config) : bool :=
  match c with
  | None => false
  | Some c =>
      if negb (FeatureFlags.AWS (Features c)) then false
      else negb (String.eqb (AWSConfig.AccessKeyID (AWSConfig c)) "") &&
           negb (String.eqb (AWSConfig.SecretAccessKey (AWSConfig c)) "")
  end.

Definition PusherEnabled (c : option Config) : bool :=
  match c with
  | None => false
  | Some c =>
      if negb (FeatureFlags.Pusher (Features c)) then false
      else negb (String.eqb (PusherConfig.AppID (PusherConfig c)) "") &&
           negb (String.eqb (PusherConfig.AppKey (PusherConfig c)) "") &&
           negb (String.eqb (PusherConfig.AppSecret (PusherConfig c)) "")
  end.

End Load.

End config.

(** ** Package handlers: health and API handlers *)

Module handlers.

(** [database.DB]: only whether the pointer is nil is read here. *)
Inductive DB := Connection.

(** [HealthHandler]. *)
Record HealthHandler := mkHealthHandler {
  cfg : option config.Config;
  db : option DB
}.

(** [NewHealthHandler]. *)
Definition NewHealthHandler (cfg : option config.Config) (db : option DB) : HealthHandler :=
  mkHealthHandler cfg db.

Section Health.

Variable env : config.Env.

(** [HealthHandler.environment]. *)
Definition environment (h : HealthHandler) : string :=
  match cfg h with
  | None => "unknown"
  | Some c => config.AppEnv c
  end.

(** [Ready], at the time [now]: the status code and the body. *)
Definition Ready (h : HealthHandler) (now : Z) : Z * gmap string fiber.jvalue :=
  let status : gmap string fiber.jvalue :=
    {[ "status" := fiber.JString "ready"; "timestamp" := fiber.JTime now ]} in
  if match cfg h with None => false | Some _ => true end &&
     config.DatabaseEnabled (cfg h) &&
     match db h with None => true | Some _ => false end
  then
    let status := <["status" := fiber.JString "degraded"]> status in
    let status :=
      <["details" := fiber.JString "database required but not connected"]> status in
    (fiber.StatusServiceUnavailable, status)
  else (200, status).

(** [featureStatus]. *)
Definition featureStatus (h : HealthHandler) : gmap string fiber.jvalue :=
  let checks : gmap string fiber.jvalue := ∅ in
  match cfg h with
  | None => checks
  | Some c =>
      let checks :=
        if config.DatabaseEnabled (cfg h) then
          match db h with
          | Some _ => <["database" := fiber.JString "connected"]> checks
          | None => <["database" := fiber.JString "unavailable"]> checks
          end
        else checks in
      let checks :=
        if config.CacheEnabled (cfg h)
        then <["cache" := fiber.JString "configured"]> checks else checks in
      let checks :=
        if config.AuthEnabled env (cfg h)
        then <["auth" := fiber.JString (config.AuthType c)]> checks else checks in
      let checks :=
        if config.MailEnabled (cfg h)
        then <["mail" := fiber.JString (config.MailConfig.Mailer (config.MailConfig c))]> checks
        else checks in
      let checks :=
        if config.AWSEnabled (cfg h)
        then <["aws" := fiber.JString (config.AWSConfig.DefaultRegion (config.AWSConfig c))]> checks
        else checks in
      let checks :=
        if config.PusherEnabled (cfg h)
        then <["pusher" := fiber.JString (config.PusherConfig.Cluster (config.PusherConfig c))]> checks
        else checks in
      checks
  end.

End Health.

(** [APIHandler]. *)
Record APIHandler := mkAPIHandler {
  api_cfg : option config.Config
}.

(** [APIHandler.appName]. *)
Definition appName (h : APIHandler) : string :=
  match api_cfg h with
  | None => "Fiber API"
  | Some c => if String.eqb (config.AppName c) "" then "Fiber API" else config.AppName c
  end.

(** [APIHandler.environment]. *)
Definition api_environment (h : APIHandler) : string :=
  match api_cfg h with
  | None => "development"
  | Some c => if String.eqb (config.AppEnv c) "" then "development" else config.AppEnv c
  end.

End handlers.

(** ** Package middleware: the toggled middleware *)

Module middleware_toggles.

(** [compress.Config], of which the source sets the level; [Next] always
    answers false. *)
Record compress_Config := mkCompressConfig {
  Level : Z
}.

(** [Compression]: [None] is the handler that only calls the next one,
    [Some config] is [compress.New(config)]. *)
Definition Compression (enabled : bool) (level : Z) : option compress_Config :=
  if negb enabled then None
  else
    let level := if (level <? -1) || (2 <? level) then 0 else level in
    Some (mkCompressConfig level).

(** [cors.Config]. *)
Record cors_Config := mkCorsConfig {
  Next : option (string -> bool);
  AllowOriginsFunc : option (string -> bool);
  AllowOrigins : string;
  AllowMethods : string;
  AllowHeaders : string;
  AllowCredentials : bool;
  ExposeHeaders : string;
  MaxAge : Z
}.

Definition default_AllowHeaders : string :=
  "Origin, Content-Type, Accept, Authorization, X-Requested-With, X-CSRF-Token".
Definition default_AllowMethods : string := "GET, POST, PUT, DELETE, OPTIONS, PATCH".
Definition default_ExposeHeaders : string := "Content-Length, Content-Type, Authorization".

(** [CORSWithConfig]: the configuration handed to [cors.New]. *)
Definition CORSWithConfig (config : cors_Config) : cors_Config :=
  let AllowOrigins' :=
    if String.eqb (AllowOrigins config) "" then "*" else AllowOrigins config in
  let AllowHeaders' :=
    if (gostring.len (AllowHeaders config) =? 0) then default_AllowHeaders
    else AllowHeaders config in
  let AllowMethods' :=
    if (gostring.len (AllowMethods config) =? 0) then default_AllowMethods
    else AllowMethods config in
  let ExposeHeaders' :=
    if (gostring.len (ExposeHeaders config) =? 0) then default_ExposeHeaders
    else ExposeHeaders config in
  let MaxAge' := if MaxAge config =? 0 then 86400 else MaxAge config in
  mkCorsConfig (Next config) (AllowOriginsFunc config) AllowOrigins' AllowMethods'
    AllowHeaders' (AllowCredentials config) ExposeHeaders' MaxAge'.

(** [CORS]: [None] is the handler that only calls the next one; the
    configuration skips the path /health. *)
Definition CORS (enabled : bool) : option cors_Config :=
  if negb enabled then None
  else
    Some (mkCorsConfig (Some (fun path => String.eqb path "/health")) None
            "*" "GET, POST, PUT, DELETE, OPTIONS, PATCH"
            "Origin, Content-Type, Accept, Authorization, X-Requested-With, X-CSRF-Token"
            false "Content-Length, Content-Type, Authorization" 86400).

End middleware_toggles.

(** ** Notions the properties are stated with *)

Module spec.
Import gostring go_validator validation middleware.

(** The character classes of the password rule. *)
Definition upperb (c : rune) : bool := (65 <=? c) && (c <=? 90).
Definition lowerb (c : rune) : bool := (97 <=? c) && (c <=? 122).
Definition digitb (c : rune) : bool := (48 <=? c) && (c <=? 57).

(** An element of a tag chain lets the walk go on: [omitempty] on a value
    that is not empty, a rule whose function accepts. *)
Definition passes (parent : list (string * value)) (current : value) (c : cTag) : Prop :=
  match c with
  | OmitEmpty => hasValue current = true
  | Rule _ param fn => fn (mkFieldLevel current param parent) = true
  end.

(** The walk of a chain ends before its end without an error: an
    [omitempty] is reached on the zero value. *)
Definition skipped (parent : list (string * value)) (current : value)
    (ct : list cTag) : Prop :=
  exists pre post,
    ct = (pre ++ OmitEmpty :: post)%list /\
    Forall (passes parent current) pre /\
    hasValue current = false.

(** The rule [tag=param] is the first failing rule of the chain: it is
    declared in it, its function rejects, and everything declared before it
    lets the walk go on. *)
Definition first_failure (parent : list (string * value)) (current : value)
    (ct : list cTag) (tag param : string) : Prop :=
  exists pre fn post,
    ct = (pre ++ Rule tag param fn :: post)%list /\
    Forall (passes parent current) pre /\
    fn (mkFieldLevel current param parent) = false.

(** A field of the struct fails one of its declared rules. *)
Definition field_fails (s : StructValue) (fv : StructField * value) : Prop :=
  exists tag param,
    first_failure (parent_of s) (snd fv) (validate_tag (fst fv)) tag param.

(** The fields [Validate] reads: the exported ones. *)
Definition validated_fields (s : StructValue) : list (StructField * value) :=
  List.filter (fun fv => IsExported (fst fv)) (fields s).


(** A field of the struct satisfies its declared rules: all of them, or all
    up to an [omitempty] that ends the walk on the zero value. *)
Definition field_satisfies (s : StructValue) (fv : StructField * value) : Prop :=
  Forall (passes (parent_of s) (snd fv)) (validate_tag (fst fv)) \/
  skipped (parent_of s) (snd fv) (validate_tag (fst fv)).

(** The four request-data sources, and the adapter seen by source. *)
Inductive source := Body | Query | Params | Headers.

Definition key_of (src : source) : string :=
  match src with
  | Body => "validated_body"
  | Query => "validated_query"
  | Params => "validated_params"
  | Headers => "validated_headers"
  end.

Definition Validate_source (ext : External) (vm : ValidationMiddleware)
    (src : source) : Model -> Ctx -> outcome :=
  match src with
  | Body => ValidateBody ext vm
  | Query => ValidateQuery ext vm
  | Params => ValidateParams ext vm
  | Headers => ValidateHeaders ext vm
  end.

Definition GetValidated (src : source) : string -> Ctx -> option StructValue * bool :=
  match src with
  | Body => GetValidatedBody
  | Query => GetValidatedQuery
  | Params => GetValidatedParams
  | Headers => GetValidatedHeaders
  end.

(** The candidate object a source's parse step builds, when it builds
    one. *)
Definition parsed (ext : External) (src : source) (c : Ctx) (model : Model)
  : option Model :=
  match src with
  | Body => match BodyParser ext c model with inr m => Some m | inl _ => None end
  | Query => match QueryParser ext c model with inr m => Some m | inl _ => None end
  | Params => match ParamsParser ext c model with inr m => Some m | inl _ => None end
  | Headers =>
      match Marshal ext (headerMap_of ext (GetReqHeaders ext c)) with
      | inr jsonData =>
          match Unmarshal ext jsonData model with
          | inr m => Some m
          | inl _ => None
          end
      | inl _ => None
      end
  end.

(** A request at its arrival: nothing stored yet. *)
Definition fresh (r : string) : Ctx := mkCtx r ∅.

(** A chain of validation handlers: each one answers, or calls the next
    with the context it leaves. *)
Fixpoint run (ext : External) (vm : ValidationMiddleware)
    (chain : list (source * Model)) (c : Ctx) : outcome :=
  match chain with
  | [] => Next c
  | (src, model) :: rest =>
      match Validate_source ext vm src model c with
      | Respond r => Respond r
      | Next c' => run ext vm rest c'
      end
  end.

(** The object [m] was stored under the tag of [src] by a handler of the
    chain whose parse step built it and whose validation passed. *)
Definition stored_by_validation (ext : External) (vm : ValidationMiddleware)
    (chain : list (source * Model)) (r : string) (src : source) (m : Model) : Prop :=
  exists model c0,
    In (src, model) chain /\ raw c0 = r /\
    parsed ext src c0 model = Some m /\
    Validate (validator_ vm) m = None.

End spec.

(** ** Example objects *)

Module examples.
Import gostring go_validator validation middleware spec.

(** [type Account struct] with a field [Password string] tagged
    [validate:password] and a field [Username string] tagged
    [json:username] and [validate:username]. *)
Definition Password_field : StructField :=
  mkStructField "Password" "" "" [Rule "password" "" validatePassword].

Definition Username_field : StructField :=
  mkStructField "Username" "" "username" [Rule "username" "" validateUsername].

Definition Account (password username : string) : StructValue :=
  mkStruct "Account"
    [(Password_field, VString password); (Username_field, VString username)].

Definition weak_account : StructValue := Account "weak" "test_user-1".
Definition good_account : StructValue := Account "SecurePass123!" "test_user-1".

Definition password_message : string :=
  "password must be at least 8 characters and contain uppercase, lowercase, number, and special character".

Definition username_message : string :=
  "username must be 3-30 characters, alphanumeric with optional underscores and hyphens".

(** [type hidden struct] of package main with the single, unexported field
    [secret string] tagged [validate:password]. *)
Definition secret_field : StructField :=
  mkStructField "secret" "main" "" [Rule "password" "" validatePassword].

Definition hidden : StructValue :=
  mkStruct "hidden" [(secret_field, VString "weak")].

(** [type Dup struct] with the fields [A string] tagged [json:x] and
    [validate:password] and [B string] tagged [json:x] and
    [validate:username]. *)
Definition A_field : StructField :=
  mkStructField "A" "" "x" [Rule "password" "" validatePassword].

Definition B_field : StructField :=
  mkStructField "B" "" "x" [Rule "username" "" validateUsername].

Definition dup : StructValue :=
  mkStruct "Dup" [(A_field, VString "weak"); (B_field, VString "a")].

(** A password of 6 characters and 8 bytes: "Aa1!" followed by two
    two-byte letters (U+00E9, bytes 195 and 169). *)
Definition short_password : string :=
  "Aa1!" ++ String (ascii_of_nat 195) (String (ascii_of_nat 169)
              (String (ascii_of_nat 195) (String (ascii_of_nat 169) ""))).

(** Collaborators that build the object [m] from every request. *)
Definition ext_parsing (m : Model) : External :=
  mkExternal (fun _ _ => inr m) (fun _ _ => inr m) (fun _ _ => inr m)
    (fun _ => []) (fun s => s) (fun _ => inr "{}") (fun _ _ => inr m).

(** Collaborators that fail to build an object. *)
Definition ext_failing : External :=
  mkExternal (fun _ _ => inl "bad body") (fun _ _ => inl "bad query")
    (fun _ _ => inl "bad params") (fun _ => []) (fun s => s)
    (fun _ => inr "{}") (fun _ _ => inl "bad headers").

End examples.

(** * Properties *)

Import gostring go_validator validation middleware spec examples.

(** ** The custom rules *)

Lemma all_runes_Forall (ok : rune -> bool) (rs : list rune) :
  all_runes ok rs = true <-> (forall c, In c rs -> ok c = true).
Proof.
  induction rs as [|c rs IH]; simpl.
  - split; [intros _ c []|reflexivity].
  - destruct (ok c) eqn:Hc; simpl.
    + rewrite IH. split.
      * intros H x [<-|Hx]; [exact Hc|exact (H x Hx)].
      * intros H x Hx. apply H. now right.
    + split; [discriminate|].
      intros H. rewrite <- Hc. apply H. now left.
Qed.

Lemma len_zero (s : string) : len s = 0 <-> s = "".
Proof.
  unfold len. destruct s; simpl; split; try reflexivity; try discriminate; lia.
Qed.

Lemma bytes_nonempty (s : string) :
  s <> "" -> exists b0 bn, first_byte s = Some b0 /\ last_byte s = Some bn.
Proof.
  intros Hs. unfold first_byte, last_byte, bytes.
  destruct s as [|a s]; [congruence|]. simpl.
  exists (byte_of a).
  destruct (last (byte_of a :: map byte_of (list_ascii_of_string s))) as [bn|] eqn:Hl.
  - exists bn. split; reflexivity.
  - apply last_None in Hl. discriminate.
Qed.

(** The symbols of the password rule, as code points. *)
Lemma pw_symbols_runes :
  runes pw_symbols =
  [33; 64; 35; 36; 37; 94; 38; 42; 40; 41; 95; 43; 45; 61; 91; 93; 123; 125;
   124; 59; 58; 44; 46; 60; 62; 63].
Proof. vm_compute. reflexivity. Qed.

Lemma ContainsRune_In (s : string) (c : rune) :
  ContainsRune s c = true <-> In c (runes s).
Proof.
  unfold ContainsRune. rewrite existsb_exists. split.
  - intros (x & Hx & Heq). apply Z.eqb_eq in Heq. now subst.
  - intros H. exists c. split; [exact H|apply Z.eqb_refl].
Qed.

Lemma symbol_not_alnum (c : rune) :
  ContainsRune pw_symbols c = true ->
  upperb c = false /\ lowerb c = false /\ digitb c = false.
Proof.
  rewrite ContainsRune_In, pw_symbols_runes. unfold upperb, lowerb, digitb.
  simpl. intros H.
  repeat (destruct H as [<-|H]; [repeat split; reflexivity|]).
  destruct H.
Qed.

Lemma pw_fold (rs : list rune) (f : pw_flags) :
  let g := fold_left pw_step rs f in
  hasUpper g = hasUpper f || existsb upperb rs /\
  hasLower g = hasLower f || existsb lowerb rs /\
  hasNumber g = hasNumber f || existsb digitb rs /\
  hasSpecial g = hasSpecial f || existsb (ContainsRune pw_symbols) rs.
Proof.
  revert f. induction rs as [|c rs IH]; intros f; simpl.
  - now rewrite !orb_false_r.
  - destruct (IH (pw_step f c)) as (HU & HL & HN & HS).
    rewrite HU, HL, HN, HS. clear IH HU HL HN HS.
    unfold pw_step. fold (upperb c) (lowerb c) (digitb c).
    destruct (ContainsRune pw_symbols c) eqn:Hs.
    + destruct (symbol_not_alnum c Hs) as (-> & -> & ->). simpl.
      repeat split; try reflexivity. now rewrite orb_true_r.
    + destruct (upperb c) eqn:Hu; simpl.
      { unfold upperb, lowerb, digitb in *.
        assert (Hl : (97 <=? c) && (c <=? 122) = false) by lia.
        assert (Hd : (48 <=? c) && (c <=? 57) = false) by lia.
        rewrite Hl, Hd. simpl. repeat split; try reflexivity.
        now rewrite orb_true_r. }
      destruct (lowerb c) eqn:Hl; simpl.
      { unfold lowerb, digitb in *.
        assert (Hd : (48 <=? c) && (c <=? 57) = false) by lia.
        rewrite Hd. simpl. repeat split; try reflexivity.
        now rewrite orb_true_r. }
      destruct (digitb c) eqn:Hd; simpl.
      { repeat split; try reflexivity. now rewrite orb_true_r. }
      repeat split; reflexivity.
Qed.

Lemma exists_range (rs : list rune) (lo hi : Z) :
  existsb (fun c => (lo <=? c) && (c <=? hi)) rs = true <->
  exists c, In c rs /\ lo <= c <= hi.
Proof.
  rewrite existsb_exists. split; intros (c & Hc & H); exists c; (split; [exact Hc|lia]).
Qed.

(** C5.  The password rule counts the length in bytes.  It accepts exactly
    the strings of at least 8 bytes that contain an uppercase ASCII letter,
    a lowercase ASCII letter, a digit and a symbol of the fixed set; a
    string shorter than 8 bytes is rejected whatever its characters are;
    "SecurePass123!" is accepted, "weak" and "alllowercase123!" are
    rejected.  The password [short_password] has all four classes and only
    6 characters, in 8 bytes, and is accepted. *)
Theorem validatePassword_spec :
  (forall fl : FieldLevel,
     let password := String_of (fl_Field fl) in
     (validatePassword fl = true <->
      8 <= len password /\
      (exists c, In c (runes password) /\ 65 <= c <= 90) /\
      (exists c, In c (runes password) /\ 97 <= c <= 122) /\
      (exists c, In c (runes password) /\ 48 <= c <= 57) /\
      (exists c, In c (runes password) /\ In c (runes pw_symbols))) /\
     (len password < 8 -> validatePassword fl = false)) /\
  (forall param parent,
     validatePassword (mkFieldLevel (VString "SecurePass123!") param parent) = true /\
     validatePassword (mkFieldLevel (VString "weak") param parent) = false /\
     validatePassword (mkFieldLevel (VString "alllowercase123!") param parent) = false) /\
  ((forall param parent,
      validatePassword (mkFieldLevel (VString short_password) param parent) = true) /\
   length (runes short_password) = 6%nat /\
   len short_password = 8).
Proof.
  split.
  - intros fl password. unfold validatePassword. fold password.
    destruct (len password <? 8) eqn:Hlen.
    + split; [|reflexivity]. split; [discriminate|]. lia.
    + split; [|lia].
      destruct (pw_fold (runes password) (PwFlags false false false false))
        as (HU & HL & HN & HS).
      cbv zeta in HU, HL, HN, HS. simpl in HU, HL, HN, HS.
      rewrite HU, HL, HN, HS. rewrite !andb_true_iff.
      unfold upperb, lowerb, digitb. rewrite !exists_range.
      rewrite existsb_exists.
      split.
      * intros (((H1 & H2) & H3) & c & Hc & H4).
        repeat split; try assumption; try lia.
        exists c. split; [exact Hc|]. now apply ContainsRune_In.
      * intros (_ & H1 & H2 & H3 & c & Hc & H4).
        repeat split; try assumption.
        exists c. split; [exact Hc|]. now apply ContainsRune_In.
  - split.
    + intros param parent. repeat split; vm_compute; reflexivity.
    + split; [intros param parent|split]; vm_compute; reflexivity.
Qed.

(** C6.  The slug rule accepts exactly the non-empty strings whose
    characters are all lowercase ASCII letters, digits or hyphens and whose
    first and last bytes are not a hyphen; "my-post-1" is accepted,
    "-leading", "trailing-" and "Has_Upper" are rejected. *)
Theorem validateSlug_spec :
  (forall fl : FieldLevel,
     let slug := String_of (fl_Field fl) in
     validateSlug fl = true <->
     slug <> "" /\
     (forall c, In c (runes slug) -> 97 <= c <= 122 \/ 48 <= c <= 57 \/ c = 45) /\
     first_byte slug <> Some 45 /\
     last_byte slug <> Some 45) /\
  (forall param parent,
     validateSlug (mkFieldLevel (VString "my-post-1") param parent) = true /\
     validateSlug (mkFieldLevel (VString "-leading") param parent) = false /\
     validateSlug (mkFieldLevel (VString "trailing-") param parent) = false /\
     validateSlug (mkFieldLevel (VString "Has_Upper") param parent) = false).
Proof.
  split.
  - intros fl slug. unfold validateSlug. fold slug.
    assert (Hclass : all_runes slug_char (runes slug) = true <->
              forall c, In c (runes slug) -> 97 <= c <= 122 \/ 48 <= c <= 57 \/ c = 45).
    { rewrite all_runes_Forall. unfold slug_char.
      split; intros H c Hc; specialize (H c Hc); lia. }
    destruct (len slug =? 0) eqn:Hlen.
    + apply Z.eqb_eq, len_zero in Hlen. split; [discriminate|].
      intros (Hne & _). congruence.
    + apply Z.eqb_neq in Hlen.
      assert (Hne : slug <> "") by (intros E; apply Hlen, len_zero, E).
      destruct (bytes_nonempty slug Hne) as (b0 & bn & -> & ->).
      destruct (all_runes slug_char (runes slug)) eqn:Hall; simpl.
      * rewrite andb_true_iff, !negb_true_iff, !Z.eqb_neq. split.
        -- intros (H0 & Hn). repeat split; try assumption; try congruence.
           now apply Hclass.
        -- intros (_ & _ & H0 & Hn). split; congruence.
      * split; [discriminate|]. intros (_ & Hc & _).
        apply Hclass in Hc. discriminate.
  - intros param parent. repeat split; vm_compute; reflexivity.
Qed.

(** C7.  The username rule accepts exactly the strings of 3 to 30 bytes
    whose characters are all ASCII letters, digits, underscores or hyphens;
    "test_user-1" is accepted, "a" and "bad user" are rejected. *)
Theorem validateUsername_spec :
  (forall fl : FieldLevel,
     let username := String_of (fl_Field fl) in
     validateUsername fl = true <->
     3 <= len username <= 30 /\
     (forall c, In c (runes username) ->
        97 <= c <= 122 \/ 65 <= c <= 90 \/ 48 <= c <= 57 \/ c = 95 \/ c = 45)) /\
  (forall param parent,
     validateUsername (mkFieldLevel (VString "test_user-1") param parent) = true /\
     validateUsername (mkFieldLevel (VString "a") param parent) = false /\
     validateUsername (mkFieldLevel (VString "bad user") param parent) = false).
Proof.
  split.
  - intros fl username. unfold validateUsername. fold username.
    assert (Hclass : all_runes username_char (runes username) = true <->
              forall c, In c (runes username) ->
                97 <= c <= 122 \/ 65 <= c <= 90 \/ 48 <= c <= 57 \/ c = 95 \/ c = 45).
    { rewrite all_runes_Forall. unfold username_char.
      split; intros H c Hc; specialize (H c Hc); lia. }
    destruct ((len username <? 3) || (30 <? len username)) eqn:Hlen.
    + split; [discriminate|]. intros (H & _). lia.
    + rewrite Hclass. split; [intros H; split; [lia|exact H]|intros (_ & H); exact H].
  - intros param parent. repeat split; vm_compute; reflexivity.
Qed.

(** ** The error report *)

(** C10.  On a [ValidationErrors] whose map is nil, [GetFieldError] gives
    the empty string, [HasFieldError] gives false, [GetAllErrors] gives an
    empty map that is not nil, and [Error] gives "validation failed", as it
    does on an empty map; [GetAllErrors] never gives the nil map. *)
Theorem ValidationErrors_nil_map :
  forall (range_order : gmap string string -> list (string * string))
         (field : string),
    GetFieldError (mkValidationErrors None) field = "" /\
    HasFieldError (mkValidationErrors None) field = false /\
    GetAllErrors (mkValidationErrors None) = Some ∅ /\
    Error range_order (mkValidationErrors None) = "validation failed" /\
    Error range_order (mkValidationErrors (Some ∅)) = "validation failed" /\
    (forall ve, is_Some (GetAllErrors ve)).
Proof.
  intros range_order field. repeat split.
  intros [[m|]]; simpl; eauto.
Qed.

(** ** Partial validation *)

(** C9.  With no field name, [ValidatePartial] is [Validate]: it returns
    the same result on every model. *)
Theorem ValidatePartial_no_fields :
  forall (vm : ValidationMiddleware) (model : Model),
    ValidatePartial vm model [] = Returns (Validate (validator_ vm) model).
Proof. intros vm model. reflexivity. Qed.








(** *** What the walk of one field reports *)

Lemma traverseField_cases (parent : list (string * value)) (name : string)
    (current : value) (ct : list cTag) :
  (traverseField parent name current ct = [] /\
   (Forall (passes parent current) ct \/ skipped parent current ct)) \/
  (exists tag param,
     traverseField parent name current ct = [mkFieldError name tag param] /\
     first_failure parent current ct tag param).
Proof.
  induction ct as [|c ct IH]; simpl.
  - left. split; [reflexivity|left; constructor].
  - destruct c as [|tag param fn].
    + destruct (hasValue current) eqn:Hv.
      * destruct IH as [(Hnil & [Hall|(pre & post & -> & Hpre & Hz)])
                       |(tag & param & He & pre & fn & post & -> & Hpre & Hfn)].
        -- left. split; [exact Hnil|left]. constructor; [exact Hv|exact Hall].
        -- congruence.
        -- right. exists tag, param. split; [exact He|].
           exists (OmitEmpty :: pre), fn, post.
           split; [reflexivity|]. split; [|exact Hfn].
           constructor; [exact Hv|exact Hpre].
      * left. split; [reflexivity|right].
        exists [], ct. split; [reflexivity|]. split; [constructor|exact Hv].
    + destruct (fn (mkFieldLevel current param parent)) eqn:Hfn.
      * destruct IH as [(Hnil & [Hall|(pre & post & -> & Hpre & Hz)])
                       |(tag' & param' & He & pre & fn' & post & -> & Hpre & Hfn')].
        -- left. split; [exact Hnil|left]. constructor; [exact Hfn|exact Hall].
        -- left. split; [exact Hnil|right].
           exists (Rule tag param fn :: pre), post.
           split; [reflexivity|]. split; [|exact Hz].
           constructor; [exact Hfn|exact Hpre].
        -- right. exists tag', param'. split; [exact He|].
           exists (Rule tag param fn :: pre), fn', post.
           split; [reflexivity|]. split; [|exact Hfn'].
           constructor; [exact Hfn|exact Hpre].
      * right. exists tag, param. split; [reflexivity|].
        exists [], fn, ct. split; [reflexivity|]. split; [constructor|exact Hfn].
Qed.

Lemma traverseField_prefix (parent : list (string * value)) (name : string)
    (current : value) (pre rest : list cTag) :
  Forall (passes parent current) pre ->
  traverseField parent name current (pre ++ rest) =
  traverseField parent name current rest.
Proof.
  induction 1 as [|c pre Hc _ IH]; [reflexivity|].
  simpl. destruct c as [|tag param fn]; simpl in Hc; rewrite Hc; exact IH.
Qed.

Lemma first_failure_traverse (parent : list (string * value)) (name : string)
    (current : value) (ct : list cTag) (tag param : string) :
  first_failure parent current ct tag param ->
  traverseField parent name current ct = [mkFieldError name tag param].
Proof.
  intros (pre & fn & post & -> & Hpre & Hfn).
  rewrite traverseField_prefix by exact Hpre. simpl. now rewrite Hfn.
Qed.

Lemma satisfies_traverse (parent : list (string * value)) (name : string)
    (current : value) (ct : list cTag) :
  Forall (passes parent current) ct \/ skipped parent current ct ->
  traverseField parent name current ct = [].
Proof.
  intros [Hall|(pre & post & -> & Hpre & Hz)].
  - rewrite <- (app_nil_r ct). now rewrite traverseField_prefix.
  - rewrite traverseField_prefix by exact Hpre. simpl. now rewrite Hz.
Qed.



(** C2.  At the struct [Account] with the password "weak", [Validate]
    reports the password rule under the key "Password", and
    [ValidatePartial] asked for the field "Password" reports nothing and
    succeeds: its error map is not the restriction of the full one. *)
Theorem ValidatePartial_misses_rule_failure :
  Validate NewValidator (MPtr weak_account) =
    Some (EValidation (mkValidationErrors (Some {["Password" := password_message]}))) /\
  FieldByName (fields weak_account) "Password" =
    Some (Password_field, VString "weak") /\
  ValidatePartial NewValidationMiddleware (MPtr weak_account) ["Password"] =
    Returns None.
Proof.
  split; [|split].
  - vm_compute. reflexivity.
  - reflexivity.
  - vm_compute. reflexivity.
Qed.

(** ** The status codes of the adapter *)

(** C1.  [ValidateBody] answers a parse failure with 400 and a validation
    failure with 422.  [ValidateQuery] and [ValidateParams] answer every
    failure with 400, and [ValidateHeaders] with 400 or 500: on the object
    [Account] with the password "weak", parsed without error, the three
    answer the validation failure with 400, the code they also give to a
    parse failure. *)
Theorem adapter_status_codes :
  (forall (ext : External) (vm : ValidationMiddleware) (model : Model) (c : Ctx),
     (forall r, ValidateBody ext vm model c = Respond r ->
        (parsed ext Body c model = None /\ status r = 400) \/
        (exists m, parsed ext Body c model = Some m /\
                   Validate (validator_ vm) m <> None /\ status r = 422)) /\
     (forall r, ValidateQuery ext vm model c = Respond r -> status r = 400) /\
     (forall r, ValidateParams ext vm model c = Respond r -> status r = 400) /\
     (forall r, ValidateHeaders ext vm model c = Respond r ->
        status r = 400 \/ status r = 500)) /\
  (let ext := ext_parsing (MPtr weak_account) in
   let vm := NewValidationMiddleware in
   let model := MPtr (Account "" "") in
   let failed := Some (DMap (Some {["Password" := password_message]})) in
   Validate (validator_ vm) (MPtr weak_account) <> None /\
   ValidateBody ext vm model (fresh "") =
     Respond (mkResponse 422 "Validation failed" "Request body validation failed"
                failed) /\
   ValidateQuery ext vm model (fresh "") =
     Respond (mkResponse 400 "Validation failed" "Query parameter validation failed"
                failed) /\
   ValidateParams ext vm model (fresh "") =
     Respond (mkResponse 400 "Validation failed" "Route parameter validation failed"
                failed) /\
   ValidateHeaders ext vm model (fresh "") =
     Respond (mkResponse 400 "Validation failed" "Header validation failed"
                failed) /\
   ValidateQuery ext_failing vm model (fresh "") =
     Respond (mkResponse 400 "Invalid query parameters"
                "Failed to parse query parameters" (Some (DText "bad query")))).
Proof.
  split.
  - intros ext vm model c. repeat split.
    + intros r. unfold ValidateBody. simpl.
      destruct (BodyParser ext c model) as [err|m].
      * intros [= <-]. left. split; reflexivity.
      * destruct (Validate (validator_ vm) m) as [err|] eqn:Hv; [|discriminate].
        intros [= <-]. right. exists m. rewrite Hv. repeat split. discriminate.
    + intros r. unfold ValidateQuery.
      destruct (QueryParser ext c model) as [err|m]; [intros [= <-]; reflexivity|].
      destruct (Validate (validator_ vm) m); [|discriminate].
      intros [= <-]. reflexivity.
    + intros r. unfold ValidateParams.
      destruct (ParamsParser ext c model) as [err|m]; [intros [= <-]; reflexivity|].
      destruct (Validate (validator_ vm) m); [|discriminate].
      intros [= <-]. reflexivity.
    + intros r. unfold ValidateHeaders. cbv zeta.
      destruct (Marshal ext _) as [err|jsonData]; [intros [= <-]; now right|].
      destruct (Unmarshal ext jsonData model) as [err|m]; [intros [= <-]; now left|].
      destruct (Validate (validator_ vm) m); [|discriminate].
      intros [= <-]. now left.
  - cbv zeta. repeat split; try (vm_compute; reflexivity).
    vm_compute. discriminate.
Qed.

(** ** Full validation *)

Lemma formattedErrors_fold (errs : list FieldError) (m0 : gmap string string)
    (k msg : string) :
  fold_left (fun m e => <[Field e := getErrorMessage e]> m) errs m0 !! k = Some msg ->
  m0 !! k = Some msg \/
  exists e, In e errs /\ Field e = k /\ msg = getErrorMessage e.
Proof.
  revert m0. induction errs as [|e errs IH]; intros m0; simpl.
  - now left.
  - intros H. destruct (IH _ H) as [H0|(e' & Hin & Hk & Hm)].
    + destruct (decide (Field e = k)) as [Hk|Hk].
      * subst k. rewrite lookup_insert_eq in H0. injection H0 as <-.
        right. exists e. repeat split. now left.
      * rewrite lookup_insert_ne in H0 by exact Hk. now left.
    + right. exists e'. repeat split; try assumption. now right.
Qed.

Lemma formattedErrors_fold_is_Some (errs : list FieldError)
    (m0 : gmap string string) (k : string) :
  is_Some (m0 !! k) \/ (exists e, In e errs /\ Field e = k) ->
  is_Some (fold_left (fun m e => <[Field e := getErrorMessage e]> m) errs m0 !! k).
Proof.
  revert m0. induction errs as [|e errs IH]; intros m0; simpl.
  - intros [H|(e & [] & _)]. exact H.
  - intros [H|(e' & [<-|Hin] & Hk)]; apply IH.
    + left. apply lookup_insert_is_Some.
      destruct (decide (Field e = k)); [now left|now right].
    + left. subst k. rewrite lookup_insert_eq. eauto.
    + right. exists e'. split; assumption.
Qed.

Lemma validated_fields_In (s : StructValue) (fv : StructField * value) :
  In fv (validated_fields s) <-> In fv (fields s) /\ IsExported (fst fv) = true.
Proof. unfold validated_fields. apply filter_In. Qed.

Lemma validateStruct_In (v : go_validator.Validate) (s : StructValue) (e : FieldError) :
  In e (validateStruct v s) <->
  exists fv, In fv (validated_fields s) /\
             Field e = altName v (fst fv) /\
             first_failure (parent_of s) (snd fv) (validate_tag (fst fv)) (Tag e) (Param e).
Proof.
  unfold validateStruct. rewrite in_flat_map. split.
  - intros (fv & Hfv & He). exists fv.
    destruct (IsExported (fst fv)) eqn:Hx; simpl in He; [|destruct He].
    split; [apply validated_fields_In; now split|].
    destruct (traverseField_cases (parent_of s) (altName v (fst fv)) (snd fv)
                (validate_tag (fst fv))) as [(Hnil & _)|(tag & param & Heq & Hff)].
    + rewrite Hnil in He. destruct He.
    + rewrite Heq in He. destruct He as [<-|[]]. split; [reflexivity|exact Hff].
  - intros (fv & Hfv & Hname & Hff).
    apply validated_fields_In in Hfv as (Hfv & Hx).
    exists fv. split; [exact Hfv|]. rewrite Hx. simpl.
    rewrite (first_failure_traverse _ (altName v (fst fv)) _ _ _ _ Hff).
    left. destruct e as [f t p]. simpl in *. now subst f.
Qed.

Lemma validateStruct_nil (v : go_validator.Validate) (s : StructValue) :
  validateStruct v s = [] <-> Forall (field_satisfies s) (validated_fields s).
Proof.
  unfold validateStruct, validated_fields, field_satisfies.
  induction (fields s) as [|fv l IH]; simpl.
  - split; [constructor|reflexivity].
  - destruct (IsExported (fst fv)) eqn:Hx; simpl; [|exact IH].
    split.
    + intros H. apply app_eq_nil in H as (H1 & H2). constructor.
      * destruct (traverseField_cases (parent_of s) (altName v (fst fv)) (snd fv)
                    (validate_tag (fst fv))) as [(_ & Hs)|(t & p & Heq & _)];
          [exact Hs|congruence].
      * now apply IH.
    + intros H. inversion H as [|? ? Hfv Hl]; subst.
      rewrite (satisfies_traverse _ _ _ _ Hfv). simpl. now apply IH.
Qed.

Lemma first_failure_unique (parent : list (string * value)) (current : value)
    (ct : list cTag) (tag param tag' param' : string) :
  first_failure parent current ct tag param ->
  first_failure parent current ct tag' param' ->
  tag = tag' /\ param = param'.
Proof.
  intros H H'.
  apply (first_failure_traverse _ "") in H.
  apply (first_failure_traverse _ "") in H'.
  rewrite H in H'. now injection H'.
Qed.

Lemma NoDup_map_inj {A B : Type} (f : A -> B) (l : list A) (a b : A) :
  List.NoDup (map f l) -> In a l -> In b l -> f a = f b -> a = b.
Proof.
  induction l as [|x l IH]; simpl; [intros _ []|].
  intros Hnd. apply NoDup_cons_iff in Hnd as (Hx & Hnd).
  intros [<-|Ha] [<-|Hb] Heq; try reflexivity.
  - exfalso. apply Hx. rewrite Heq. now apply in_map.
  - exfalso. apply Hx. rewrite <- Heq. now apply in_map.
  - now apply IH.
Qed.

(** C4.  On a struct, passed by value or by pointer, [Validate] returns nil
    or a [ValidationErrors] with a map; it returns nil exactly when every
    exported field satisfies its declared rules, and an error exactly when
    some exported field fails one (unexported fields are passed over).
    Every entry of the map is the message of the first failing rule of a
    field reported under that key, every failing field has an entry under
    its name, and when the reported names of the exported fields are
    pairwise different the entry of a failing field is the message of its
    own first failing rule. *)
Theorem Validate_first_failure :
  forall (v : Validator) (s : StructValue),
    let name fv := altName (validate v) (fst fv) in
    let failure fv := first_failure (parent_of s) (snd fv) (validate_tag (fst fv)) in
    Validate v (MPtr s) = Validate v (MStruct s) /\
    (Validate v (MStruct s) = None \/
     exists m, Validate v (MStruct s) = Some (EValidation (mkValidationErrors (Some m)))) /\
    (Validate v (MStruct s) = None <-> Forall (field_satisfies s) (validated_fields s)) /\
    ((exists ve, Validate v (MStruct s) = Some (EValidation ve)) <->
     Exists (field_fails s) (validated_fields s)) /\
    (forall m,
       Validate v (MStruct s) = Some (EValidation (mkValidationErrors (Some m))) ->
       (forall k msg, m !! k = Some msg ->
          exists fv tag param,
            In fv (validated_fields s) /\ name fv = k /\ failure fv tag param /\
            msg = getErrorMessage (mkFieldError k tag param)) /\
       (forall fv, In fv (validated_fields s) -> field_fails s fv -> is_Some (m !! name fv)) /\
       (List.NoDup (map name (validated_fields s)) ->
        forall fv tag param,
          In fv (validated_fields s) -> failure fv tag param ->
          m !! name fv = Some (getErrorMessage (mkFieldError (name fv) tag param)))).
Proof.
  intros v s name failure.
  assert (Hshape : Validate v (MStruct s) =
            match validateStruct (validate v) s with
            | [] => None
            | errs => Some (EValidation (mkValidationErrors (Some (formattedErrors errs))))
            end).
  { unfold Validate, Struct. destruct (validateStruct (validate v) s); reflexivity. }
  assert (Hentries : forall m,
            Validate v (MStruct s) = Some (EValidation (mkValidationErrors (Some m))) ->
            m = formattedErrors (validateStruct (validate v) s)).
  { intros m. rewrite Hshape. destruct (validateStruct (validate v) s); [discriminate|].
    now intros [= <-]. }
  assert (Hfails : forall fv, In fv (validated_fields s) -> field_fails s fv ->
            exists e, In e (validateStruct (validate v) s) /\ Field e = name fv).
  { intros fv Hin (tag & param & Hff).
    exists (mkFieldError (name fv) tag param). split; [|reflexivity].
    apply validateStruct_In. exists fv. repeat split; assumption. }
  assert (Hkeys : forall m,
            Validate v (MStruct s) = Some (EValidation (mkValidationErrors (Some m))) ->
            forall k msg, m !! k = Some msg ->
              exists fv tag param,
                In fv (validated_fields s) /\ name fv = k /\ failure fv tag param /\
                msg = getErrorMessage (mkFieldError k tag param)).
  { intros m Hm k msg Hk. rewrite (Hentries m Hm) in Hk.
    apply formattedErrors_fold in Hk as [Hk|(e & He & Hf & ->)].
    - now rewrite lookup_empty in Hk.
    - apply validateStruct_In in He as (fv & Hin & Hname & Hff).
      exists fv, (Tag e), (Param e). repeat split; try assumption.
      + unfold name. congruence.
      + destruct e as [f t p]. simpl in *. now subst. }
  assert (Hsome : forall m,
            Validate v (MStruct s) = Some (EValidation (mkValidationErrors (Some m))) ->
            forall fv, In fv (validated_fields s) -> field_fails s fv -> is_Some (m !! name fv)).
  { intros m Hm fv Hin Hf. rewrite (Hentries m Hm).
    apply formattedErrors_fold_is_Some. right. now apply Hfails. }
  split; [reflexivity|]. split; [|split; [|split]].
  - rewrite Hshape. destruct (validateStruct (validate v) s); [now left|right; eauto].
  - rewrite <- validateStruct_nil with (v := validate v). rewrite Hshape.
    destruct (validateStruct (validate v) s); split; try reflexivity; discriminate.
  - rewrite Hshape. rewrite List.Exists_exists. split.
    + intros (ve & Hve).
      destruct (validateStruct (validate v) s) as [|e errs] eqn:He; [discriminate|].
      assert (Hin : In e (validateStruct (validate v) s)) by (rewrite He; now left).
      apply validateStruct_In in Hin as (fv & Hin & _ & Hff).
      exists fv. split; [exact Hin|]. exists (Tag e), (Param e). exact Hff.
    + intros (fv & Hin & Hf). destruct (Hfails fv Hin Hf) as (e & He & _).
      destruct (validateStruct (validate v) s); [destruct He|eauto].
  - intros m Hm. split; [exact (Hkeys m Hm)|]. split; [exact (Hsome m Hm)|].
    intros Hnd fv tag param Hin Hff.
    destruct (Hsome m Hm fv Hin) as (msg & Hmsg); [exists tag, param; exact Hff|].
    rewrite Hmsg.
    destruct (Hkeys m Hm _ _ Hmsg) as (fv' & tag' & param' & Hin' & Hname & Hff' & ->).
    assert (fv' = fv) by (eapply (NoDup_map_inj name); eassumption). subst fv'.
    destruct (first_failure_unique _ _ _ _ _ _ _ Hff Hff') as (-> & ->).
    reflexivity.
Qed.

(** C4, as stated, fails in two places.  On the struct [Dup], whose fields
    A and B are both reported under the name "x", field A fails the
    password rule first, yet the only entry of the map is the message of
    B's username rule.  On the struct [hidden], the unexported field fails
    its password rule, yet [Validate] returns nil. *)
Lemma Validate_first_failure_counterexample :
  (In (A_field, VString "weak") (fields dup) /\
   altName (validate NewValidator) A_field = "x" /\
   first_failure (parent_of dup) (VString "weak") (validate_tag A_field) "password" "" /\
   Validate NewValidator (MPtr dup) =
     Some (EValidation (mkValidationErrors (Some {["x" := username_message]}))) /\
   getErrorMessage (mkFieldError "x" "password" "") <> username_message) /\
  (In (secret_field, VString "weak") (fields hidden) /\
   first_failure (parent_of hidden) (VString "weak") (validate_tag secret_field)
     "password" "" /\
   Validate NewValidator (MPtr hidden) = None).
Proof.
  split.
  - split; [now left|]. split; [reflexivity|]. split; [|split].
    + exists [], validatePassword, []. repeat split. constructor.
    + vm_compute. reflexivity.
    + vm_compute. discriminate.
  - split; [now left|]. split; [|reflexivity].
    exists [], validatePassword, []. repeat split. constructor.
Qed.

(** ** Retrieval of the validated object *)

Lemma key_of_inj (src src' : source) : key_of src = key_of src' -> src = src'.
Proof. destruct src, src'; simpl; intros H; try reflexivity; discriminate. Qed.

Lemma GetValidated_cases (src : source) (T : string) (c : Ctx) :
  GetValidated src T c = (None, false) \/
  (GetValidated src T c = (None, true) /\
   locals c !! key_of src = Some (MNilPtr T)) \/
  exists s, GetValidated src T c = (Some s, true) /\
            locals c !! key_of src = Some (MPtr s) /\
            type_name s = T.
Proof.
  assert (H : forall key,
    let got := match assert_ptr T (Locals c key) with
               | (model, true) => (model, true)
               | _ => (None, false)
               end in
    got = (None, false) \/
    (got = (None, true) /\ locals c !! key = Some (MNilPtr T)) \/
    exists s, got = (Some s, true) /\
              locals c !! key = Some (MPtr s) /\ type_name s = T).
  { intros key. unfold Locals. cbv zeta.
    destruct (locals c !! key) as [[|s|s|T'|x]|]; simpl; try now left.
    - destruct (String.eqb (type_name s) T) eqn:E; [|now left].
      right. right. exists s. repeat split. now apply String.eqb_eq.
    - destruct (String.eqb T' T) eqn:E; [|now left].
      right. left. apply String.eqb_eq in E. now subst. }
  destruct src; apply H.
Qed.

Lemma Validate_nil_pointer (v : Validator) (T : string) :
  Validate v (MNilPtr T) <> None.
Proof. discriminate. Qed.

Lemma Validate_source_Next (ext : External) (vm : ValidationMiddleware)
    (src : source) (model : Model) (c c' : Ctx) :
  Validate_source ext vm src model c = Next c' ->
  exists m, parsed ext src c model = Some m /\
            Validate (validator_ vm) m = None /\
            c' = Locals_set c (key_of src) m.
Proof.
  destruct src; simpl.
  - unfold ValidateBody. destruct (BodyParser ext c model) as [err|m]; [discriminate|].
    destruct (Validate (validator_ vm) m) eqn:Hv; [discriminate|].
    intros [= <-]. exists m. repeat split; assumption.
  - unfold ValidateQuery. destruct (QueryParser ext c model) as [err|m]; [discriminate|].
    destruct (Validate (validator_ vm) m) eqn:Hv; [discriminate|].
    intros [= <-]. exists m. repeat split; assumption.
  - unfold ValidateParams. destruct (ParamsParser ext c model) as [err|m]; [discriminate|].
    destruct (Validate (validator_ vm) m) eqn:Hv; [discriminate|].
    intros [= <-]. exists m. repeat split; assumption.
  - unfold ValidateHeaders. cbv zeta.
    destruct (Marshal ext _) as [err|jsonData]; [discriminate|].
    destruct (Unmarshal ext jsonData model) as [err|m]; [discriminate|].
    destruct (Validate (validator_ vm) m) eqn:Hv; [discriminate|].
    intros [= <-]. exists m. repeat split; assumption.
Qed.

Lemma run_stored (ext : External) (vm : ValidationMiddleware)
    (chain : list (source * Model)) (c c' : Ctx) :
  run ext vm chain c = Next c' ->
  raw c' = raw c /\
  forall src m,
    locals c' !! key_of src = Some m ->
    locals c !! key_of src = Some m \/
    stored_by_validation ext vm chain (raw c) src m.
Proof.
  revert c. induction chain as [|[src0 model] chain IH]; intros c; simpl.
  - intros [= <-]. split; [reflexivity|]. intros src m H. now left.
  - destruct (Validate_source ext vm src0 model c) as [r|c1] eqn:Hstep; [discriminate|].
    intros Hrun. destruct (IH c1 Hrun) as (Hraw & Hl).
    apply Validate_source_Next in Hstep as (m0 & Hp & Hv & ->).
    simpl in Hraw. split; [exact Hraw|].
    intros src m H. destruct (Hl src m H) as [H1|(model' & c0 & Hin & Hr & Hp' & Hv')].
    + simpl in H1. destruct (decide (key_of src0 = key_of src)) as [E|E].
      * rewrite E in H1. rewrite lookup_insert_eq in H1. injection H1 as <-.
        apply key_of_inj in E. subst src0.
        right. exists model, c. repeat split; try assumption. now left.
      * rewrite lookup_insert_ne in H1 by exact E. now left.
    + right. exists model', c0. repeat split; try assumption. now right.
Qed.

(** C8.  A retrieval helper answers found = false with no object, or
    found = true with the pointer stored under its own tag, whose type is
    the expected one.  It finds nothing on a fresh request, nothing at a
    type other than that of the stored object, and nothing under a tag no
    handler of the chain validated.  After a chain of validation handlers,
    found = true always comes with an object: a struct of the expected
    type, stored under that tag by a handler whose parse step built it and
    whose validation passed (a nil pointer never passes validation).  Right
    after a handler stored a pointer, retrieval under its tag at the
    pointer's type finds it. *)
Theorem GetValidated_found_only_when_stored :
  forall (ext : External) (vm : ValidationMiddleware),
    (forall src T c,
       GetValidated src T c = (None, false) \/
       (GetValidated src T c = (None, true) /\
        locals c !! key_of src = Some (MNilPtr T)) \/
       exists s, GetValidated src T c = (Some s, true) /\
                 locals c !! key_of src = Some (MPtr s) /\
                 type_name s = T) /\
    (forall src T r, GetValidated src T (fresh r) = (None, false)) /\
    (forall src T c s,
       locals c !! key_of src = Some (MPtr s) -> type_name s <> T ->
       GetValidated src T c = (None, false)) /\
    (forall chain r c src T o,
       run ext vm chain (fresh r) = Next c ->
       GetValidated src T c = (o, true) ->
       exists s, o = Some s /\ type_name s = T /\
                 stored_by_validation ext vm chain r src (MPtr s)) /\
    (forall chain r c src T,
       run ext vm chain (fresh r) = Next c ->
       (forall model, ~ In (src, model) chain) ->
       GetValidated src T c = (None, false)) /\
    (forall src model c c' s,
       Validate_source ext vm src model c = Next c' ->
       parsed ext src c model = Some (MPtr s) ->
       GetValidated src (type_name s) c' = (Some s, true)).
Proof.
  intros ext vm.
  assert (Hchain : forall chain r c src T o,
            run ext vm chain (fresh r) = Next c ->
            GetValidated src T c = (o, true) ->
            exists s, o = Some s /\ type_name s = T /\
                      stored_by_validation ext vm chain r src (MPtr s)).
  { intros chain r c src T o Hrun Hget.
    destruct (run_stored ext vm chain (fresh r) c Hrun) as (_ & Hs).
    destruct (GetValidated_cases src T c) as [E|[(E & Hl)|(s & E & Hl & HT)]];
      [congruence| |].
    - destruct (Hs src _ Hl) as [H0|(_ & _ & _ & _ & _ & Hv)].
      + simpl in H0. now rewrite lookup_empty in H0.
      + now apply Validate_nil_pointer in Hv.
    - rewrite E in Hget. injection Hget as <-.
      exists s. split; [reflexivity|]. split; [exact HT|].
      destruct (Hs src (MPtr s) Hl) as [H0|H0]; [|exact H0].
      simpl in H0. now rewrite lookup_empty in H0. }
  split; [exact GetValidated_cases|]. split; [|split; [|split; [exact Hchain|split]]].
  - intros src T r. destruct src; reflexivity.
  - intros src T c s Hl HT.
    destruct (GetValidated_cases src T c) as [E|[(E & Hl')|(s' & E & Hl' & HT')]];
      [exact E|congruence|congruence].
  - intros chain r c src T Hrun Hno.
    destruct (GetValidated src T c) as [o [|]] eqn:E.
    + destruct (Hchain chain r c src T o Hrun E)
        as (s & _ & _ & model & c0 & Hin & _).
      destruct (Hno model Hin).
    + destruct (GetValidated_cases src T c) as [E'|[(E' & _)|(s & E' & _)]];
        congruence.
  - intros src model c c' s Hstep Hp.
    apply Validate_source_Next in Hstep as (m & Hp' & _ & ->).
    rewrite Hp in Hp'. injection Hp' as <-.
    destruct src; unfold GetValidated, GetValidatedBody, GetValidatedQuery,
      GetValidatedParams, GetValidatedHeaders, Locals, Locals_set; simpl;
      rewrite lookup_insert_eq; simpl; now rewrite String.eqb_refl.
Qed.

(** * Further properties *)

(** ** What [range] yields on ASCII text *)

Lemma decode_cons (b0 : Z) (t0 : list Z) :
  decode (b0 :: t0) =
  match first b0 with
  | AS => b0 :: decode t0
  | XX => RuneError :: decode t0
  | Seq sz lo hi =>
      match t0 with
      | [] => RuneError :: decode t0
      | b1 :: t1 =>
          if negb ((lo <=? b1) && (b1 <=? hi)) then RuneError :: decode t0
          else if (sz <=? 2)%nat then rune2 b0 b1 :: decode t1
          else
            match t1 with
            | [] => RuneError :: decode t0
            | b2 :: t2 =>
                if negb (cont b2) then RuneError :: decode t0
                else if (sz <=? 3)%nat then rune3 b0 b1 b2 :: decode t2
                else
                  match t2 with
                  | [] => RuneError :: decode t0
                  | b3 :: t3 =>
                      if negb (cont b3) then RuneError :: decode t0
                      else rune4 b0 b1 b2 b3 :: decode t3
                  end
            end
      end
  end.
Proof. reflexivity. Qed.

Lemma first_AS (b : Z) : first b = AS <-> b < 128.
Proof.
  unfold first.
  repeat match goal with
         | |- context [if ?c then _ else _] => destruct c eqn:?
         end; split; intros; try discriminate; try reflexivity; lia.
Qed.

Lemma first_Seq (b : Z) (sz : nat) (lo hi : Z) :
  first b = Seq sz lo hi ->
  128 <= lo /\ hi <= 191 /\
  ((sz = 2%nat /\ 194 <= b < 224) \/
   (sz = 3%nat /\ (b = 224 /\ lo = 160 \/ 225 <= b < 240)) \/
   (sz = 4%nat /\ (b = 240 /\ lo = 144 \/ 241 <= b <= 244))).
Proof.
  unfold first.
  repeat match goal with
         | |- context [if ?c then _ else _] => destruct c eqn:?
         end; intros [= <- <- <-] || discriminate; lia.
Qed.

Lemma lor_small_l (a b : Z) : 0 <= a -> 0 <= b -> Z.lor a b < 128 -> a < 128.
Proof.
  intros Ha Hb H.
  destruct (Z_lt_le_dec a 128) as [Hlt|Hge]; [exact Hlt|exfalso].
  assert (H0 : 0 <= Z.lor a b) by (apply Z.lor_nonneg; split; assumption).
  assert (Hs : Z.shiftr (Z.lor a b) 7 = 0).
  { rewrite Z.shiftr_div_pow2 by lia. apply Z.div_small. simpl. lia. }
  rewrite Z.shiftr_lor in Hs. apply Z.lor_eq_0_iff in Hs as (Hs & _).
  rewrite Z.shiftr_div_pow2 in Hs by lia.
  change (2 ^ 7) with 128 in Hs.
  assert (1 <= a / 128) by (apply Z.div_le_lower_bound; lia).
  lia.
Qed.

Lemma lor_small_r (a b : Z) : 0 <= a -> 0 <= b -> Z.lor a b < 128 -> b < 128.
Proof. intros Ha Hb. rewrite Z.lor_comm. now apply lor_small_l. Qed.

Lemma mask_mod (b k : Z) : 0 <= k -> Z.land b (Z.ones k) = b mod 2 ^ k.
Proof. intros Hk. now apply Z.land_ones. Qed.

Lemma rune2_high (b0 b1 : Z) : 194 <= b0 < 224 -> 0 <= b1 -> 128 <= rune2 b0 b1.
Proof.
  intros H0 H1. unfold rune2.
  destruct (Z_lt_le_dec (Z.lor (Z.shiftl (Z.land b0 31) 6) (Z.land b1 63)) 128)
    as [Hlt|Hge]; [exfalso|exact Hge].
  apply lor_small_l in Hlt.
  - rewrite Z.shiftl_mul_pow2 in Hlt by lia.
    change 31 with (Z.ones 5) in Hlt. rewrite mask_mod in Hlt by lia.
    change (2 ^ 5) with 32 in Hlt. change (2 ^ 6) with 64 in Hlt.
    Z.to_euclidean_division_equations. lia.
  - apply Z.shiftl_nonneg, Z.land_nonneg. right. lia.
  - apply Z.land_nonneg. right. lia.
Qed.

Lemma shifted_mask_nonneg (b m k : Z) : 0 <= m -> 0 <= Z.shiftl (Z.land b m) k.
Proof. intros Hm. apply Z.shiftl_nonneg, Z.land_nonneg. now right. Qed.

Lemma rune3_high (b0 b1 b2 : Z) :
  (b0 = 224 /\ 160 <= b1 <= 191) \/ 225 <= b0 < 240 ->
  128 <= rune3 b0 b1 b2.
Proof.
  intros H. unfold rune3.
  set (A := Z.shiftl (Z.land b0 15) 12).
  set (B := Z.shiftl (Z.land b1 63) 6).
  set (C := Z.land b2 63).
  assert (HA : 0 <= A) by (apply shifted_mask_nonneg; lia).
  assert (HB : 0 <= B) by (apply shifted_mask_nonneg; lia).
  assert (HC : 0 <= C) by (apply Z.land_nonneg; right; lia).
  destruct (Z_lt_le_dec (Z.lor (Z.lor A B) C) 128) as [Hlt|Hge]; [exfalso|exact Hge].
  apply lor_small_l in Hlt; [|apply Z.lor_nonneg; split; assumption|assumption].
  pose proof (lor_small_l A B HA HB Hlt) as HAs.
  pose proof (lor_small_r A B HA HB Hlt) as HBs.
  subst A B. rewrite Z.shiftl_mul_pow2 in HAs, HBs by lia.
  change 15 with (Z.ones 4) in HAs. change 63 with (Z.ones 6) in HBs.
  rewrite mask_mod in HAs, HBs by lia.
  change (2 ^ 4) with 16 in HAs. change (2 ^ 6) with 64 in HBs.
  change (2 ^ 12) with 4096 in HAs.
  destruct H as [(-> & H1)|H0]; Z.to_euclidean_division_equations; lia.
Qed.

Lemma rune4_high (b0 b1 b2 b3 : Z) :
  (b0 = 240 /\ 144 <= b1 <= 191) \/ 241 <= b0 <= 244 ->
  128 <= rune4 b0 b1 b2 b3.
Proof.
  intros H. unfold rune4.
  set (A := Z.shiftl (Z.land b0 7) 18).
  set (B := Z.shiftl (Z.land b1 63) 12).
  set (C := Z.shiftl (Z.land b2 63) 6).
  set (D := Z.land b3 63).
  assert (HA : 0 <= A) by (apply shifted_mask_nonneg; lia).
  assert (HB : 0 <= B) by (apply shifted_mask_nonneg; lia).
  assert (HC : 0 <= C) by (apply shifted_mask_nonneg; lia).
  assert (HD : 0 <= D) by (apply Z.land_nonneg; right; lia).
  assert (HAB : 0 <= Z.lor A B) by (apply Z.lor_nonneg; split; assumption).
  destruct (Z_lt_le_dec (Z.lor (Z.lor (Z.lor A B) C) D) 128) as [Hlt|Hge];
    [exfalso|exact Hge].
  apply lor_small_l in Hlt; [|apply Z.lor_nonneg; split; assumption|assumption].
  apply lor_small_l in Hlt; [|assumption|assumption].
  pose proof (lor_small_l A B HA HB Hlt) as HAs.
  pose proof (lor_small_r A B HA HB Hlt) as HBs.
  subst A B. rewrite Z.shiftl_mul_pow2 in HAs, HBs by lia.
  change 7 with (Z.ones 3) in HAs. change 63 with (Z.ones 6) in HBs.
  rewrite mask_mod in HAs, HBs by lia.
  change (2 ^ 3) with 8 in HAs. change (2 ^ 6) with 64 in HBs.
  change (2 ^ 18) with 262144 in HAs. change (2 ^ 12) with 4096 in HBs.
  destruct H as [(-> & H1)|H0]; Z.to_euclidean_division_equations; lia.
Qed.

Lemma RuneError_high : 128 <= RuneError.
Proof. unfold RuneError. lia. Qed.

(** One step of the loop: an ASCII byte is yielded as it is; any other
    step consumes one to four bytes, none of them ASCII, and yields a rune
    that is not ASCII. *)
Lemma decode_step (b0 : Z) (t0 : list Z) :
  exists r mid t',
    decode (b0 :: t0) = r :: decode t' /\
    t0 = (mid ++ t')%list /\
    (length mid <= 3)%nat /\
    ((b0 < 128 /\ r = b0 /\ mid = []) \/
     (128 <= b0 /\ 128 <= r /\ Forall (fun b => 128 <= b) mid)).
Proof.
  pose proof RuneError_high as HRE.
  assert (Hfail : 128 <= b0 ->
            exists r mid t',
              RuneError :: decode t0 = r :: decode t' /\
              t0 = (mid ++ t')%list /\ (length mid <= 3)%nat /\
              ((b0 < 128 /\ r = b0 /\ mid = []) \/
               (128 <= b0 /\ 128 <= r /\ Forall (fun b => 128 <= b) mid))).
  { intros Hb. exists RuneError, [], t0. repeat split; simpl; try lia.
    right. repeat split; try assumption. constructor. }
  rewrite decode_cons. destruct (first b0) as [| |sz lo hi] eqn:Hf.
  - apply first_AS in Hf. exists b0, [], t0. repeat split; simpl; try lia.
    left. repeat split. exact Hf.
  - apply Hfail. destruct (Z_lt_le_dec b0 128) as [Hlt|Hge]; [|exact Hge].
    apply first_AS in Hlt. congruence.
  - apply first_Seq in Hf as (Hlo & Hhi & Hsz).
    assert (Hb0 : 128 <= b0) by lia.
    destruct t0 as [|b1 t1]; [now apply Hfail|].
    destruct ((lo <=? b1) && (b1 <=? hi)) eqn:H1; cbn [negb]; [|now apply Hfail].
    assert (Hb1 : lo <= b1 <= hi) by lia.
    destruct (sz <=? 2)%nat eqn:H2.
    { apply Nat.leb_le in H2.
      exists (rune2 b0 b1), [b1], t1. repeat split; simpl; try lia.
      right. repeat split; try assumption.
      - apply rune2_high; lia.
      - repeat constructor. lia. }
    apply Nat.leb_gt in H2.
    destruct t1 as [|b2 t2]; [now apply Hfail|].
    destruct (cont b2) eqn:H3; cbn [negb]; [|now apply Hfail].
    assert (Hb2 : 128 <= b2) by (unfold cont in H3; lia).
    destruct (sz <=? 3)%nat eqn:H4.
    { apply Nat.leb_le in H4.
      exists (rune3 b0 b1 b2), [b1; b2], t2. repeat split; simpl; try lia.
      right. repeat split; try assumption.
      - apply rune3_high. lia.
      - repeat constructor; lia. }
    apply Nat.leb_gt in H4.
    destruct t2 as [|b3 t3]; [now apply Hfail|].
    destruct (cont b3) eqn:H5; cbn [negb]; [|now apply Hfail].
    assert (Hb3 : 128 <= b3) by (unfold cont in H5; lia).
    exists (rune4 b0 b1 b2 b3), [b1; b2; b3], t3. repeat split; simpl; try lia.
    right. repeat split; try assumption.
    + apply rune4_high. lia.
    + repeat constructor; lia.
Qed.

Lemma decode_length_ind (n : nat) :
  forall s : list Z, (length s <= n)%nat ->
    (forall c, c < 128 -> (In c (decode s) <-> In c s)) /\
    (length (decode s) <= length s <= 4 * length (decode s))%nat /\
    (Forall (fun c => c < 128) (decode s) -> decode s = s).
Proof.
  induction n as [|n IH]; intros s Hn.
  - destruct s; [|simpl in Hn; lia]. simpl. repeat split; tauto || lia.
  - destruct s as [|b0 t0]; [simpl; repeat split; tauto || lia|].
    destruct (decode_step b0 t0) as (r & mid & t' & -> & -> & Hmid & Hcase).
    simpl in Hn. rewrite length_app in Hn.
    destruct (IH t' ltac:(lia)) as (Hmem & Hlen & Hid).
    split; [|split].
    + intros c Hc. simpl. rewrite in_app_iff, (Hmem c Hc).
      destruct Hcase as [(_ & -> & ->)|(Hb & Hr & Hall)].
      * simpl. tauto.
      * rewrite List.Forall_forall in Hall. split.
        -- intros [E|H]; [lia|tauto].
        -- intros [E|[H|H]]; [lia| |tauto]. apply Hall in H. lia.
    + simpl. rewrite length_app. lia.
    + intros Hall. inversion Hall as [|? ? Hr Ht]; subst.
      destruct Hcase as [(_ & -> & ->)|(Hb & Hr' & _)]; [|lia].
      simpl. now rewrite (Hid Ht).
Qed.

Lemma decode_ascii_mem (s : list Z) (c : Z) :
  c < 128 -> (In c (decode s) <-> In c s).
Proof. intros Hc. now apply (decode_length_ind (length s) s). Qed.

Lemma decode_ascii_id (s : list Z) :
  Forall (fun c => c < 128) (decode s) -> decode s = s.
Proof. now apply (decode_length_ind (length s) s). Qed.

Lemma decode_length (s : list Z) :
  (length (decode s) <= length s <= 4 * length (decode s))%nat.
Proof. now apply (decode_length_ind (length s) s). Qed.

Lemma bytes_length (s : string) : Z.of_nat (length (bytes s)) = len s.
Proof.
  unfold bytes, len. rewrite length_map. f_equal.
  induction s as [|a s IH]; simpl; [reflexivity|now rewrite IH].
Qed.

Lemma bytes_app (s t : string) : bytes (s ++ t) = (bytes s ++ bytes t)%list.
Proof.
  unfold bytes. rewrite <- map_app. f_equal.
  induction s as [|a s IH]; simpl; [reflexivity|now rewrite IH].
Qed.

Lemma decode_ascii_bytes (bs : list Z) :
  Forall (fun b => b < 128) bs -> decode bs = bs.
Proof.
  induction bs as [|b bs IH]; [reflexivity|].
  intros Hall. inversion Hall as [|? ? Hb Hbs]; subst.
  rewrite decode_cons. apply first_AS in Hb. rewrite Hb.
  now rewrite IH.
Qed.

(** A rule that accepts only ASCII characters reads the same on the runes
    and on the bytes of a string. *)
Lemma all_runes_ascii (ok : rune -> bool) (bs : list Z) :
  (forall c, ok c = true -> c < 128) ->
  (all_runes ok (decode bs) = true <-> (forall b, In b bs -> ok b = true)) /\
  (all_runes ok (decode bs) = true -> decode bs = bs).
Proof.
  intros Hok. rewrite all_runes_Forall.
  assert (Hid : (forall c, In c (decode bs) -> ok c = true) -> decode bs = bs).
  { intros H. apply decode_ascii_id, List.Forall_forall.
    intros c Hc. apply Hok, H, Hc. }
  split; [split|exact Hid].
  - intros H. rewrite (Hid H) in H. exact H.
  - intros H. rewrite decode_ascii_bytes; [exact H|].
    apply List.Forall_forall. intros b Hb. apply Hok, H, Hb.
Qed.

(** ** The custom rules on bytes *)

Lemma symbol_ascii (c : rune) : In c (runes pw_symbols) -> c < 128.
Proof.
  rewrite pw_symbols_runes. simpl. intros H.
  repeat (destruct H as [<-|H]; [lia|]). destruct H.
Qed.

Lemma ascii_rune_byte (s : string) (P : Z -> Prop) :
  (forall c, P c -> c < 128) ->
  (exists c, In c (runes s) /\ P c) <-> (exists b, In b (bytes s) /\ P b).
Proof.
  intros HP. unfold runes.
  split; intros (c & Hc & Hp); exists c; (split; [|exact Hp]);
    apply (decode_ascii_mem (bytes s) c (HP c Hp)); exact Hc.
Qed.

(** X1.  The password rule reads the same on bytes: it accepts exactly the
    strings of at least 8 bytes with an uppercase letter, a lowercase
    letter, a digit and a symbol among their bytes.  So text added before
    or after an accepted password leaves it accepted (there is no upper
    bound), and since the length is counted in bytes a password of fewer
    than 8 characters can be accepted. *)
Theorem validatePassword_bytes :
  forall (param : string) (parent : list (string * value)),
    let accepts s := validatePassword (mkFieldLevel (VString s) param parent) = true in
    (forall s,
       accepts s <->
       8 <= len s /\
       (exists b, In b (bytes s) /\ 65 <= b <= 90) /\
       (exists b, In b (bytes s) /\ 97 <= b <= 122) /\
       (exists b, In b (bytes s) /\ 48 <= b <= 57) /\
       (exists b, In b (bytes s) /\ In b (runes pw_symbols))) /\
    (forall s t, accepts s -> accepts (s ++ t) /\ accepts (t ++ s)) /\
    (exists s, (length (runes s) < 8)%nat /\ accepts s).
Proof.
  intros param parent accepts.
  assert (Hbytes : forall s,
    accepts s <->
    8 <= len s /\
    (exists b, In b (bytes s) /\ 65 <= b <= 90) /\
    (exists b, In b (bytes s) /\ 97 <= b <= 122) /\
    (exists b, In b (bytes s) /\ 48 <= b <= 57) /\
    (exists b, In b (bytes s) /\ In b (runes pw_symbols))).
  { intros s. unfold accepts, validatePassword. cbn [String_of fl_Field].
    rewrite <- (ascii_rune_byte s (fun c => 65 <= c <= 90)) by (intros; lia).
    rewrite <- (ascii_rune_byte s (fun c => 97 <= c <= 122)) by (intros; lia).
    rewrite <- (ascii_rune_byte s (fun c => 48 <= c <= 57)) by (intros; lia).
    rewrite <- (ascii_rune_byte s (fun c => In c (runes pw_symbols)))
      by (intros c Hc; now apply symbol_ascii).
    destruct (len s <? 8) eqn:Hlen; [split; [discriminate|lia]|].
    destruct (pw_fold (runes s) (PwFlags false false false false))
      as (HU & HL & HN & HS).
    cbv zeta in HU, HL, HN, HS. simpl in HU, HL, HN, HS.
    rewrite HU, HL, HN, HS. rewrite !andb_true_iff.
    unfold upperb, lowerb, digitb. rewrite !exists_range.
    rewrite existsb_exists.
    split.
    - intros (((H1 & H2) & H3) & c & Hc & H4).
      repeat split; try assumption; try lia.
      exists c. split; [exact Hc|]. now apply ContainsRune_In.
    - intros (_ & H1 & H2 & H3 & c & Hc & H4).
      repeat split; try assumption.
      exists c. split; [exact Hc|]. now apply ContainsRune_In. }
  split; [exact Hbytes|]. split.
  - intros s t Hs. apply Hbytes in Hs as (Hl & (u & Hu & HU) & (l & Hlo & HL)
                                           & (d & Hd & HD) & (y & Hy & HY)).
    split; apply Hbytes; rewrite bytes_app; rewrite <- !bytes_length in *;
      rewrite ?bytes_app, ?length_app; (split; [lia|]);
      repeat split; eexists; (split; [apply in_app_iff|eassumption]); eauto.
  - exists ("Aa1!" ++ String (ascii_of_nat 195) (String (ascii_of_nat 169)
              (String (ascii_of_nat 195) (String (ascii_of_nat 169) ""))))%string.
    split; [vm_compute; lia|]. unfold accepts. vm_compute. reflexivity.
Qed.

(** X2.  The username rule reads the same on bytes: it accepts exactly the
    strings of 3 to 30 bytes that are all ASCII letters, digits,
    underscores or hyphens.  An accepted username is pure ASCII, so it has
    3 to 30 characters as well. *)
Theorem validateUsername_bytes :
  forall fl : FieldLevel,
    let username := String_of (fl_Field fl) in
    (validateUsername fl = true <->
     3 <= len username <= 30 /\
     (forall b, In b (bytes username) ->
        97 <= b <= 122 \/ 65 <= b <= 90 \/ 48 <= b <= 57 \/ b = 95 \/ b = 45)) /\
    (validateUsername fl = true ->
     runes username = bytes username /\
     3 <= Z.of_nat (length (runes username)) <= 30).
Proof.
  intros fl username.
  assert (Hok : forall c, username_char c = true -> c < 128)
    by (unfold username_char; intros; lia).
  destruct (all_runes_ascii username_char (bytes username) Hok) as (Hiff & Hid).
  unfold validateUsername. fold username. fold (runes username) in Hiff, Hid.
  destruct ((len username <? 3) || (30 <? len username)) eqn:Hlen.
  - split; [|discriminate]. split; [discriminate|]. intros (H & _). lia.
  - split.
    + rewrite Hiff. unfold username_char.
      split; [intros H; split; [lia|]|intros (_ & H)];
        intros b Hb; specialize (H b Hb); lia.
    + intros H. rewrite (Hid H). split; [reflexivity|].
      rewrite bytes_length. lia.
Qed.

(** X3.  The slug rule reads the same on bytes: it accepts exactly the
    non-empty strings whose bytes are all lowercase ASCII letters, digits or
    hyphens, the first and the last not a hyphen.  An accepted slug is pure
    ASCII, and the rule sets no upper bound on its length. *)
Theorem validateSlug_bytes :
  forall fl : FieldLevel,
    let slug := String_of (fl_Field fl) in
    (validateSlug fl = true <->
     slug <> "" /\
     (forall b, In b (bytes slug) -> 97 <= b <= 122 \/ 48 <= b <= 57 \/ b = 45) /\
     first_byte slug <> Some 45 /\
     last_byte slug <> Some 45) /\
    (validateSlug fl = true -> runes slug = bytes slug).
Proof.
  intros fl slug.
  assert (Hok : forall c, slug_char c = true -> c < 128)
    by (unfold slug_char; intros; lia).
  destruct (all_runes_ascii slug_char (bytes slug) Hok) as (Hiff & Hid).
  fold (runes slug) in Hiff, Hid.
  assert (Hclass : all_runes slug_char (runes slug) = true <->
                   (forall b, In b (bytes slug) ->
                      97 <= b <= 122 \/ 48 <= b <= 57 \/ b = 45)).
  { rewrite Hiff. unfold slug_char.
    split; intros H b Hb; specialize (H b Hb); lia. }
  unfold validateSlug. fold slug.
  destruct (len slug =? 0) eqn:Hlen.
  - apply Z.eqb_eq, len_zero in Hlen. split; [|discriminate].
    split; [discriminate|]. intros (Hne & _). congruence.
  - apply Z.eqb_neq in Hlen.
    assert (Hne : slug <> "") by (intros E; apply Hlen, len_zero, E).
    destruct (bytes_nonempty slug Hne) as (b0 & bn & -> & ->).
    destruct (all_runes slug_char (runes slug)) eqn:Hall; simpl.
    + split; [|intros _; now apply Hid].
      rewrite andb_true_iff, !negb_true_iff, !Z.eqb_neq. split.
      * intros (H0 & Hn). repeat split; try assumption; try congruence.
        now apply Hclass.
      * intros (_ & _ & H0 & Hn). split; congruence.
    + split; [|discriminate]. split; [discriminate|]. intros (_ & Hc & _).
      apply Hclass in Hc. discriminate.
Qed.

(** ** Single values, formatted errors and partial validation *)

(** X4.  [ValidateField] ignores its field name.  It returns nil exactly
    when the value satisfies the tag, and otherwise a [ValidationErrors]
    with a single entry, filed under the empty name and worded for the empty
    field name, for the first failing rule. *)
Theorem ValidateField_unnamed :
  forall (vm : ValidationMiddleware) (fieldName : string) (value : value)
         (tag : list cTag),
    ValidateField vm fieldName value tag = ValidateField vm "" value tag /\
    (ValidateField vm fieldName value tag = None <->
     Forall (passes [] value) tag \/ skipped [] value tag) /\
    (ValidateField vm fieldName value tag = None \/
     exists t p,
       first_failure [] value tag t p /\
       ValidateField vm fieldName value tag =
         Some (EValidation (mkValidationErrors
                 (Some {["" := getErrorMessage (mkFieldError "" t p)]})))).
Proof.
  intros vm fieldName value tag. split; [reflexivity|].
  unfold ValidateField, ValidateVar, Var.
  destruct tag as [|c tag].
  - split; [|now left]. split; [left; constructor|reflexivity].
  - destruct (traverseField_cases [] "" value (c :: tag))
      as [(Hnil & Hs)|(t & p & He & Hff)]; rewrite ?Hnil, ?He.
    + split; [|now left]. split; [intros _; exact Hs|reflexivity].
    + split.
      * split; [discriminate|]. intros Hs.
        rewrite (satisfies_traverse _ "" _ _ Hs) in He. discriminate.
      * right. exists t, p. split; [exact Hff|]. simpl.
        unfold formattedErrors. simpl. now rewrite insert_empty.
Qed.

Lemma formattedErrors_snoc (errs : list FieldError) (e : FieldError) :
  formattedErrors (errs ++ [e]) =
  <[Field e := getErrorMessage e]> (formattedErrors errs).
Proof. unfold formattedErrors. now rewrite fold_left_app. Qed.

(** X5.  The map [formatValidationError] builds holds, under each name, the
    message of the last error reported under that name, and nothing under a
    name no error reports; it has at most as many entries as there are
    errors. *)
Theorem formattedErrors_last_wins :
  forall (errs : list FieldError) (k : string),
    formattedErrors errs !! k =
      getErrorMessage <$> last (List.filter (fun e => String.eqb (Field e) k) errs) /\
    (size (formattedErrors errs) <= length errs)%nat.
Proof.
  intros errs k. induction errs as [|e errs (IH1 & IH2)] using rev_ind.
  - split; [apply lookup_empty|]. unfold formattedErrors. simpl.
    now rewrite map_size_empty.
  - rewrite formattedErrors_snoc. split.
    + rewrite List.filter_app. simpl.
      destruct (String.eqb (Field e) k) eqn:E.
      * apply String.eqb_eq in E. subst k.
        rewrite lookup_insert_eq, last_snoc. reflexivity.
      * apply String.eqb_neq in E.
        rewrite lookup_insert_ne by exact E. now rewrite app_nil_r.
    + rewrite length_app. simpl. rewrite map_size_insert.
      destruct (formattedErrors errs !! Field e); simpl; lia.
Qed.





(** ** The handlers of the adapter, one at a time *)

Lemma key_of_ne (src src' : source) : src' <> src -> key_of src <> key_of src'.
Proof. intros H E. apply H. symmetry. now apply key_of_inj. Qed.

Lemma GetValidated_Locals (src : source) (T : string) (c c' : Ctx) :
  Locals c' (key_of src) = Locals c (key_of src) ->
  GetValidated src T c' = GetValidated src T c.
Proof.
  destruct src; simpl; unfold GetValidatedBody, GetValidatedQuery,
    GetValidatedParams, GetValidatedHeaders; intros ->; reflexivity.
Qed.

(** X7.  A validation handler answers exactly when its parse step or the
    validation fails.  Otherwise it calls the next handler with a context
    that keeps the request, holds the parsed object under the tag of its
    source, and is unchanged for retrieval under every other tag. *)
Theorem Validate_source_frame :
  forall (ext : External) (vm : ValidationMiddleware) (src : source)
         (model : Model) (c : Ctx),
    match Validate_source ext vm src model c with
    | Respond r =>
        parsed ext src c model = None \/
        exists m, parsed ext src c model = Some m /\
                  Validate (validator_ vm) m <> None
    | Next c' =>
        raw c' = raw c /\
        (exists m, parsed ext src c model = Some m /\
                   Validate (validator_ vm) m = None /\
                   Locals c' (key_of src) = m) /\
        (forall src' T, src' <> src ->
           GetValidated src' T c' = GetValidated src' T c)
    end.
Proof.
  intros ext vm src model c.
  destruct (Validate_source ext vm src model c) as [r|c'] eqn:Hstep.
  - destruct src; simpl in Hstep |- *;
      unfold ValidateBody, ValidateQuery, ValidateParams, ValidateHeaders in Hstep;
      cbv zeta in Hstep.
    + destruct (BodyParser ext c model) as [err|m]; [now left|].
      destruct (Validate (validator_ vm) m) eqn:Hv; [|discriminate].
      right. exists m. split; [reflexivity|congruence].
    + destruct (QueryParser ext c model) as [err|m]; [now left|].
      destruct (Validate (validator_ vm) m) eqn:Hv; [|discriminate].
      right. exists m. split; [reflexivity|congruence].
    + destruct (ParamsParser ext c model) as [err|m]; [now left|].
      destruct (Validate (validator_ vm) m) eqn:Hv; [|discriminate].
      right. exists m. split; [reflexivity|congruence].
    + destruct (Marshal ext _) as [err|jsonData]; [now left|].
      destruct (Unmarshal ext jsonData model) as [err|m]; [now left|].
      destruct (Validate (validator_ vm) m) eqn:Hv; [|discriminate].
      right. exists m. split; [reflexivity|congruence].
  - apply Validate_source_Next in Hstep as (m & Hp & Hv & ->).
    split; [reflexivity|]. split.
    + exists m. repeat split; try assumption.
      unfold Locals, Locals_set. simpl. now rewrite lookup_insert_eq.
    + intros src' T Hne. apply GetValidated_Locals.
      unfold Locals, Locals_set. simpl.
      rewrite lookup_insert_ne by (now apply key_of_ne). reflexivity.
Qed.

(** X8.  The header map [ValidateHeaders] builds: every entry is the first
    value of a header that has one, under its lower-cased name; every
    header with a value has an entry under its lower-cased name; a name
    under which only headers without values fall has none. *)
Theorem headerMap_of_entries :
  forall (ext : External) (headers : list (string * list string)),
    (forall k v,
       headerMap_of ext headers !! k = Some v ->
       exists key values, In (key, v :: values) headers /\ ToLower ext key = k) /\
    (forall key v values,
       In (key, v :: values) headers ->
       is_Some (headerMap_of ext headers !! ToLower ext key)) /\
    (forall k,
       (forall key values, In (key, values) headers -> ToLower ext key = k ->
                           values = []) ->
       headerMap_of ext headers !! k = None).
Proof.
  intros ext headers.
  set (step := fun (headerMap : gmap string string) (kv : string * list string) =>
                 match snd kv with
                 | [] => headerMap
                 | v0 :: _ => <[ToLower ext (fst kv) := v0]> headerMap
                 end).
  assert (Hfrom : forall hs (m0 : gmap string string) k v,
            fold_left step hs m0 !! k = Some v ->
            m0 !! k = Some v \/
            exists key values, In (key, v :: values) hs /\ ToLower ext key = k).
  { induction hs as [|[key values] hs IH]; intros m0 k v; simpl; [now left|].
    intros H. destruct (IH _ _ _ H) as [H0|(key' & values' & Hin & Hk)].
    - unfold step in H0. simpl in H0. destruct values as [|v0 values]; [now left|].
      destruct (decide (ToLower ext key = k)) as [E|E].
      + rewrite E, lookup_insert_eq in H0. injection H0 as <-.
        right. exists key, values. split; [now left|exact E].
      + rewrite lookup_insert_ne in H0 by exact E. now left.
    - right. exists key', values'. split; [now right|exact Hk]. }
  assert (Hto : forall hs (m0 : gmap string string) k,
            is_Some (m0 !! k) \/
            (exists key v values, In (key, v :: values) hs /\ ToLower ext key = k) ->
            is_Some (fold_left step hs m0 !! k)).
  { induction hs as [|[key values] hs IH]; intros m0 k; simpl.
    - intros [H|(? & ? & ? & [] & _)]. exact H.
    - intros [H|(key' & v & values' & [[= -> ->]|Hin] & Hk)]; apply IH.
      + left. unfold step. simpl. destruct values; [exact H|].
        apply lookup_insert_is_Some.
        destruct (decide (ToLower ext key = k)); [now left|now right].
      + left. unfold step. simpl. rewrite Hk, lookup_insert_eq. eauto.
      + right. exists key', v, values'. split; assumption. }
  assert (H1 : forall k v,
            headerMap_of ext headers !! k = Some v ->
            exists key values, In (key, v :: values) headers /\ ToLower ext key = k).
  { intros k v H. destruct (Hfrom headers ∅ k v H) as [H0|H0]; [|exact H0].
    now rewrite lookup_empty in H0. }
  split; [exact H1|]. split.
  - intros key v values Hin. apply (Hto headers ∅). right.
    exists key, v, values. split; [exact Hin|reflexivity].
  - intros k Hall. destruct (headerMap_of ext headers !! k) as [v|] eqn:E; [|reflexivity].
    destruct (H1 k v E) as (key & values & Hin & Hk).
    specialize (Hall key (v :: values) Hin Hk). discriminate.
Qed.

(** ** The error envelope *)

(** X9.  [GlobalValidationErrorHandler] answers with 400, 422 or 500 only:
    422 with the error's own map as details for a [ValidationErrors], the
    error's code for a [fiber.Error] of code 400 or 422, and 500 for every
    other error, a [fiber.Error] of another code included.  The status code
    sent is the status written in the body.  The middleware's
    [ErrorHandler] gives the same answer wherever it answers, and returns
    the error exactly where the global handler says 500. *)
Theorem GlobalValidationErrorHandler_codes :
  forall err : utils.error,
    let answer := utils.GlobalValidationErrorHandler err in
    (utils.sent_code answer = 400 \/ utils.sent_code answer = 422 \/
     utils.sent_code answer = 500) /\
    (forall ve, err = utils.Validation ve ->
       answer = utils.SentResponse 422
                  (utils.mkResponse "Validation failed" "Request validation failed"
                     (GetAllErrors ve) 422)) /\
    (forall e, err = utils.Fiber e ->
       utils.sent_code answer =
         if (fiber.Code e =? 400) || (fiber.Code e =? 422) then fiber.Code e else 500) /\
    (forall text, err = utils.Other text -> utils.sent_code answer = 500) /\
    match answer with
    | utils.SentResponse code body => utils.Status body = code
    | utils.SentMap code body => body !! "status" = Some (fiber.JInt code)
    end /\
    (utils.ErrorHandler err = utils.Answered answer /\ utils.sent_code answer <> 500 \/
     utils.ErrorHandler err = utils.Returned err /\ utils.sent_code answer = 500).
Proof.
  intros [ve|e|text]; cbv zeta.
  - split; [|split; [|split; [|split; [|split]]]].
    + right. left. reflexivity.
    + intros ve' [= <-]. reflexivity.
    + discriminate.
    + discriminate.
    + reflexivity.
    + left. split; [reflexivity|discriminate].
  - unfold utils.GlobalValidationErrorHandler, utils.ErrorHandler,
      fiber.StatusUnprocessableEntity, fiber.StatusBadRequest.
    assert (Hcode : utils.sent_code (utils.request_error e) = fiber.Code e)
      by reflexivity.
    destruct ((fiber.Code e =? 422) || (fiber.Code e =? 400)) eqn:E;
      (split; [|split; [|split; [|split; [|split]]]]);
      try discriminate; try reflexivity.
    + rewrite Hcode. lia.
    + intros e' [= <-]. rewrite orb_comm, E. exact Hcode.
    + left. split; [reflexivity|]. rewrite Hcode. lia.
    + right. right. reflexivity.
    + intros e' [= <-]. rewrite orb_comm, E. reflexivity.
    + right. split; reflexivity.
  - split; [|split; [|split; [|split; [|split]]]].
    + right. right. reflexivity.
    + discriminate.
    + discriminate.
    + reflexivity.
    + reflexivity.
    + right. split; reflexivity.
Qed.

(** X10.  The helper's [FormatValidationErrors] and the error's own
    [Error] differ on a [ValidationErrors] without entries (a nil or an
    empty map): the helper gives the empty string, [Error] gives
    "validation failed".  On a map with entries, visited in the same order,
    they give the same text. *)
Theorem FormatValidationErrors_vs_Error :
  forall range_order : gmap string string -> list (string * string),
    range_order ∅ = [] ->
    forall ve : ValidationErrors,
      (map_len (Errors ve) = 0 ->
       utils.FormatValidationErrors range_order (utils.Validation ve) = "" /\
       Error range_order ve = "validation failed") /\
      (map_len (Errors ve) <> 0 ->
       utils.FormatValidationErrors range_order (utils.Validation ve) =
       Error range_order ve).
Proof.
  intros range_order Hempty [[m|]]; simpl; unfold Error; simpl.
  - split.
    + intros Hz. assert (size m = 0%nat) by lia.
      apply map_size_empty_iff in H. subst m. rewrite Hempty.
      split; reflexivity.
    + intros Hz. destruct (Z.of_nat (size m) =? 0) eqn:E; [lia|reflexivity].
  - split; [intros _; rewrite Hempty; split; reflexivity|congruence].
Qed.

Lemma FormatValidationErrors_vs_Error_witness :
  (map_len (Errors (mkValidationErrors None)) = 0 ->
   utils.FormatValidationErrors map_to_list (utils.Validation (mkValidationErrors None)) = "" /\
   Error map_to_list (mkValidationErrors None) = "validation failed") /\
  (map_len (Errors (mkValidationErrors None)) <> 0 ->
   utils.FormatValidationErrors map_to_list (utils.Validation (mkValidationErrors None)) =
   Error map_to_list (mkValidationErrors None)).
Proof.
  apply (FormatValidationErrors_vs_Error map_to_list).
  apply map_to_list_empty.
Defined.

(** ** The configuration *)

Lemma ParseBool_true (str : string) :
  config.ParseBool str = Some true <->
  In str ["1"; "t"; "T"; "TRUE"; "true"; "True"].
Proof.
  unfold config.ParseBool. simpl.
  destruct (String.eqb str "1") eqn:E1; [apply String.eqb_eq in E1; subst; simpl; tauto|].
  destruct (String.eqb str "t") eqn:E2; [apply String.eqb_eq in E2; subst; simpl; tauto|].
  destruct (String.eqb str "T") eqn:E3; [apply String.eqb_eq in E3; subst; simpl; tauto|].
  destruct (String.eqb str "TRUE") eqn:E4; [apply String.eqb_eq in E4; subst; simpl; tauto|].
  destruct (String.eqb str "true") eqn:E5; [apply String.eqb_eq in E5; subst; simpl; tauto|].
  destruct (String.eqb str "True") eqn:E6; [apply String.eqb_eq in E6; subst; simpl; tauto|].
  apply String.eqb_neq in E1, E2, E3, E4, E5, E6. simpl.
  split.
  - intros H. destruct (_ || _); discriminate.
  - intros [H|[H|[H|[H|[H|[H|[]]]]]]]; congruence.
Qed.

Lemma ParseBool_false (str : string) :
  config.ParseBool str = Some false <->
  In str ["0"; "f"; "F"; "FALSE"; "false"; "False"].
Proof.
  unfold config.ParseBool.
  destruct (String.eqb str "1" || String.eqb str "t" || String.eqb str "T" ||
            String.eqb str "TRUE" || String.eqb str "true" || String.eqb str "True")
    eqn:Ht.
  - split; [discriminate|].
    repeat rewrite orb_true_iff in Ht. rewrite !String.eqb_eq in Ht.
    simpl. intros H. intuition congruence.
  - clear Ht. simpl.
    destruct (String.eqb str "0") eqn:E1; [apply String.eqb_eq in E1; subst; simpl; tauto|].
    destruct (String.eqb str "f") eqn:E2; [apply String.eqb_eq in E2; subst; simpl; tauto|].
    destruct (String.eqb str "F") eqn:E3; [apply String.eqb_eq in E3; subst; simpl; tauto|].
    destruct (String.eqb str "FALSE") eqn:E4; [apply String.eqb_eq in E4; subst; simpl; tauto|].
    destruct (String.eqb str "false") eqn:E5; [apply String.eqb_eq in E5; subst; simpl; tauto|].
    destruct (String.eqb str "False") eqn:E6; [apply String.eqb_eq in E6; subst; simpl; tauto|].
    apply String.eqb_neq in E1, E2, E3, E4, E5, E6. simpl.
    split; [discriminate|]. intros [H|[H|[H|[H|[H|[H|[]]]]]]]; congruence.
Qed.

(** A flag that is off by default is on exactly for the six spellings of
    true; a flag that is on by default is off exactly for the six spellings
    of false. *)
Lemma getEnvAsBool_default_false (env : config.Env) (key : string) :
  config.getEnvAsBool env key false = true <->
  In (config.Getenv env key) ["1"; "t"; "T"; "TRUE"; "true"; "True"].
Proof.
  unfold config.getEnvAsBool. cbv zeta. rewrite <- ParseBool_true.
  destruct (String.eqb (config.Getenv env key) "") eqn:E; simpl.
  - apply String.eqb_eq in E. rewrite E. split; discriminate.
  - destruct (config.ParseBool (config.Getenv env key)) as [[|]|];
      split; congruence.
Qed.

Lemma getEnvAsBool_default_true (env : config.Env) (key : string) :
  config.getEnvAsBool env key true = false <->
  In (config.Getenv env key) ["0"; "f"; "F"; "FALSE"; "false"; "False"].
Proof.
  unfold config.getEnvAsBool. cbv zeta. rewrite <- ParseBool_false.
  destruct (String.eqb (config.Getenv env key) "") eqn:E; simpl.
  - apply String.eqb_eq in E. rewrite E. split; discriminate.
  - destruct (config.ParseBool (config.Getenv env key)) as [[|]|];
      split; congruence.
Qed.

Lemma getEnv_empty_default (env : config.Env) (key : string) :
  config.getEnv env key "" = config.Getenv env key.
Proof.
  unfold config.getEnv. cbv zeta.
  destruct (String.eqb (config.Getenv env key) "") eqn:E; simpl; [|reflexivity].
  now apply String.eqb_eq in E.
Qed.

Lemma getEnv_nonempty (env : config.Env) (key defaultValue : string) :
  defaultValue <> "" -> config.getEnv env key defaultValue <> "".
Proof.
  intros Hd. unfold config.getEnv. cbv zeta.
  destruct (String.eqb (config.Getenv env key) "") eqn:E; simpl; [exact Hd|].
  now apply String.eqb_neq.
Qed.

Lemma nonempty_true (s : string) : negb (String.eqb s "") = true <-> s <> "".
Proof. rewrite negb_true_iff. apply String.eqb_neq. Qed.

(** X11.  [LoadConfig] fails only when loading the .env file fails for
    another reason than a missing file.  On the configuration it returns, a
    feature is enabled only if its FEATURE variable is one of the six
    spellings of true: the database also needs DB_URL, auth a type that is
    not "disabled" in any case and AUTH_SECRET, AWS its two keys, Pusher its
    three credentials; cache and mail need nothing more, because an empty
    REDIS_HOST or MAIL_HOST is replaced by its default. *)
Theorem LoadConfig_feature_gates :
  forall env : config.Env,
    match config.LoadConfig env with
    | inl e =>
        exists text, config.godotenv_Load env = Some (config.LoadFailed text) /\
                     e = config.LoadFailed text
    | inr c =>
        let on key := In (config.Getenv env key) ["1"; "t"; "T"; "TRUE"; "true"; "True"] in
        let set key := config.Getenv env key <> "" in
        (config.DatabaseEnabled (Some c) = true <->
         on "FEATURE_DATABASE" /\ set "DB_URL") /\
        (config.CacheEnabled (Some c) = true <-> on "FEATURE_CACHE") /\
        (config.MailEnabled (Some c) = true <-> on "FEATURE_MAIL") /\
        (config.AuthEnabled env (Some c) = true <->
         on "FEATURE_AUTH" /\
         config.ToLower env (config.getEnv env "AUTH" "Disabled") <> "disabled" /\
         set "AUTH_SECRET") /\
        (config.AWSEnabled (Some c) = true <->
         on "FEATURE_AWS" /\ set "AWS_ACCESS_KEY_ID" /\ set "AWS_SECRET_ACCESS_KEY") /\
        (config.PusherEnabled (Some c) = true <->
         on "FEATURE_PUSHER" /\ set "PUSHER_APP_ID" /\ set "PUSHER_APP_KEY" /\
         set "PUSHER_APP_SECRET")
    end.
Proof.
  intros env. unfold config.LoadConfig.
  assert (Hcfg : forall c,
    c = config.mkConfig
             (config.getEnv env "PORT" "3000")
             (config.getEnv env "HOST" "localhost")
             (config.getEnv env "APP_ENV" "development")
             (config.getEnv env "APP_URL" "http://localhost:3000")
             (config.getEnv env "APP_NAME" "Fiber App")
             (config.getEnvAsBool env "CORS" true)
             (config.getEnvAsBool env "COMPRESS" true)
             (config.getEnvAsInt env "COMPRESS_LEVEL" 0)
             (config.FeatureFlags.mk
                (config.getEnvAsBool env "FEATURE_DATABASE" false)
                (config.getEnvAsBool env "FEATURE_AUTH" false)
                (config.getEnvAsBool env "FEATURE_CACHE" false)
                (config.getEnvAsBool env "FEATURE_MAIL" false)
                (config.getEnvAsBool env "FEATURE_AWS" false)
                (config.getEnvAsBool env "FEATURE_PUSHER" false))
             (config.getEnv env "DB_URL" "")
             (config.getEnv env "AUTH" "Disabled")
             (config.getEnv env "AUTH_SECRET" "")
             (config.SessionConfig.mk
                (config.getEnvAsBool env "SESSION_HTTPONLY" true)
                (config.getEnv env "SESSION_SAMESITE" "lax")
                (config.getEnvAsDuration env "SESSION_EXPIRE" (24 * config.Hour)))
             (config.JWTConfig.mk
                (config.getEnvAsDuration env "JWT_EXPIRE" (24 * config.Hour))
                (config.getEnvAsDuration env "JWT_REFRESH_EXPIRE" (7 * 24 * config.Hour)))
             (config.getEnv env "REDIS_HOST" "localhost")
             (config.getEnv env "REDIS_PASSWORD" "")
             (config.getEnv env "REDIS_PORT" "6379")
             (config.MailConfig.mk
                (config.getEnv env "MAIL_MAILER" "smtp")
                (config.getEnv env "MAIL_HOST" "mailpit")
                (config.getEnvAsInt env "MAIL_PORT" 1025)
                (config.getEnv env "MAIL_USERNAME" "")
                (config.getEnv env "MAIL_PASSWORD" "")
                (config.getEnv env "MAIL_ENCRYPTION" "")
                (config.getEnv env "MAIL_FROM_ADDRESS" "hello@example.com")
                (config.getEnv env "MAIL_FROM_NAME" "Fiber App"))
             (config.AWSConfig.mk
                (config.getEnv env "AWS_ACCESS_KEY_ID" "")
                (config.getEnv env "AWS_SECRET_ACCESS_KEY" "")
                (config.getEnv env "AWS_DEFAULT_REGION" "us-east-1")
                (config.getEnv env "AWS_BUCKET" ""))
             (config.PusherConfig.mk
                (config.getEnv env "PUSHER_APP_ID" "")
                (config.getEnv env "PUSHER_APP_KEY" "")
                (config.getEnv env "PUSHER_APP_SECRET" "")
                (config.getEnv env "PUSHER_APP_CLUSTER" "mt1")) ->
    let on key := In (config.Getenv env key) ["1"; "t"; "T"; "TRUE"; "true"; "True"] in
    let set key := config.Getenv env key <> "" in
    (config.DatabaseEnabled (Some c) = true <->
     on "FEATURE_DATABASE" /\ set "DB_URL") /\
    (config.CacheEnabled (Some c) = true <-> on "FEATURE_CACHE") /\
    (config.MailEnabled (Some c) = true <-> on "FEATURE_MAIL") /\
    (config.AuthEnabled env (Some c) = true <->
     on "FEATURE_AUTH" /\
     config.ToLower env (config.getEnv env "AUTH" "Disabled") <> "disabled" /\
     set "AUTH_SECRET") /\
    (config.AWSEnabled (Some c) = true <->
     on "FEATURE_AWS" /\ set "AWS_ACCESS_KEY_ID" /\ set "AWS_SECRET_ACCESS_KEY") /\
    (config.PusherEnabled (Some c) = true <->
     on "FEATURE_PUSHER" /\ set "PUSHER_APP_ID" /\ set "PUSHER_APP_KEY" /\
     set "PUSHER_APP_SECRET")).
  { intros c -> on set. subst on set. cbv beta.
    unfold config.DatabaseEnabled, config.CacheEnabled, config.MailEnabled,
      config.AuthEnabled, config.AWSEnabled, config.PusherEnabled.
    cbn [config.Features config.DBURL config.RedisHost config.MailConfig
         config.AWSConfig config.PusherConfig config.AuthType config.AuthSecret
         config.FeatureFlags.Database config.FeatureFlags.Auth
         config.FeatureFlags.Cache config.FeatureFlags.Mail
         config.FeatureFlags.AWS config.FeatureFlags.Pusher
         config.MailConfig.Host config.AWSConfig.AccessKeyID
         config.AWSConfig.SecretAccessKey config.PusherConfig.AppID
         config.PusherConfig.AppKey config.PusherConfig.AppSecret].
    rewrite !getEnv_empty_default.
    pose proof (getEnv_nonempty env "REDIS_HOST" "localhost" ltac:(discriminate)) as HR.
    pose proof (getEnv_nonempty env "MAIL_HOST" "mailpit" ltac:(discriminate)) as HM.
    apply nonempty_true in HR, HM. rewrite HR, HM.
    rewrite <- !getEnvAsBool_default_false.
    split; [|split; [|split; [|split; [|split]]]];
      match goal with
      | |- context [config.getEnvAsBool env ?k false] =>
          destruct (config.getEnvAsBool env k false)
      end; simpl;
      rewrite ?andb_true_iff, ?negb_true_iff, ?String.eqb_neq;
      intuition congruence. }
  destruct (config.godotenv_Load env) as [[|text]|].
  - now apply Hcfg.
  - exists text. split; reflexivity.
  - now apply Hcfg.
Qed.

(** X12.  On the configuration [LoadConfig] returns, CORS, compression and
    HTTP-only sessions are on unless their variable is one of the six
    spellings of false, and every setting with a non-empty default is never
    empty; so the fallback names of the API handler are never used with a
    loaded configuration. *)
Theorem LoadConfig_defaults :
  forall env : config.Env,
    match config.LoadConfig env with
    | inl e => config.godotenv_Load env = Some e
    | inr c =>
        let off key := In (config.Getenv env key) ["0"; "f"; "F"; "FALSE"; "false"; "False"] in
        (config.CORS c = false <-> off "CORS") /\
        (config.Compress c = false <-> off "COMPRESS") /\
        (config.SessionConfig.HTTPOnly (config.SessionConfig c) = false <->
         off "SESSION_HTTPONLY") /\
        Forall (fun s => s <> "")
          [config.Port c; config.Host c; config.AppEnv c; config.AppURL c;
           config.AppName c; config.AuthType c; config.RedisHost c;
           config.RedisPort c;
           config.SessionConfig.SameSite (config.SessionConfig c);
           config.MailConfig.Mailer (config.MailConfig c);
           config.MailConfig.Host (config.MailConfig c);
           config.MailConfig.FromAddress (config.MailConfig c);
           config.MailConfig.FromName (config.MailConfig c);
           config.AWSConfig.DefaultRegion (config.AWSConfig c);
           config.PusherConfig.Cluster (config.PusherConfig c)] /\
        handlers.appName (handlers.mkAPIHandler (Some c)) = config.AppName c /\
        handlers.api_environment (handlers.mkAPIHandler (Some c)) = config.AppEnv c
    end.
Proof.
  intros env. unfold config.LoadConfig.
  assert (Hne : forall key d, d <> "" -> config.getEnv env key d <> "")
    by (intros; now apply getEnv_nonempty).
  assert (Hfall : forall s d : string,
            s <> "" -> (if String.eqb s "" then d else s) = s).
  { intros s d Hs. apply String.eqb_neq in Hs. now rewrite Hs. }
  destruct (config.godotenv_Load env) as [[|text]|]; [|reflexivity|];
    cbv zeta;
    (split; [|split; [|split; [|split; [|split]]]]);
    try (rewrite <- getEnvAsBool_default_true; reflexivity);
    try (unfold handlers.appName, handlers.api_environment; simpl;
         apply Hfall, Hne; discriminate);
    simpl; repeat (constructor; [apply Hne; discriminate|]); constructor.
Qed.

(** ** The toggled middleware *)

(** X13.  [Compression] builds the compressing handler exactly when it is
    enabled, and the level it hands over is always between -1 and 2: a
    level in that range is kept, any other becomes 0. *)
Theorem Compression_level_in_range :
  forall (enabled : bool) (level : Z),
    match middleware_toggles.Compression enabled level with
    | None => enabled = false
    | Some cfg =>
        enabled = true /\
        -1 <= middleware_toggles.Level cfg <= 2 /\
        (-1 <= level <= 2 -> middleware_toggles.Level cfg = level) /\
        (level < -1 \/ 2 < level -> middleware_toggles.Level cfg = 0)
    end.
Proof.
  intros [|] level; unfold middleware_toggles.Compression; simpl; [|reflexivity].
  destruct ((level <? -1) || (2 <? level)) eqn:E; simpl;
    repeat split; try lia.
Qed.

(** X14.  [CORSWithConfig] hands over a configuration without an empty
    origin, header, method or exposed-header list and without a zero max
    age; it keeps every such setting that was given, and the callbacks and
    the credentials flag as they are.  Filling in twice changes nothing
    more, and on the empty configuration it gives the settings of
    [CORS(true)]. *)
Theorem CORSWithConfig_fills_defaults :
  forall config : middleware_toggles.cors_Config,
    let filled := middleware_toggles.CORSWithConfig config in
    (middleware_toggles.AllowOrigins filled <> "" /\
     middleware_toggles.AllowHeaders filled <> "" /\
     middleware_toggles.AllowMethods filled <> "" /\
     middleware_toggles.ExposeHeaders filled <> "" /\
     middleware_toggles.MaxAge filled <> 0) /\
    ((middleware_toggles.AllowOrigins config <> "" ->
      middleware_toggles.AllowOrigins filled = middleware_toggles.AllowOrigins config) /\
     (middleware_toggles.AllowHeaders config <> "" ->
      middleware_toggles.AllowHeaders filled = middleware_toggles.AllowHeaders config) /\
     (middleware_toggles.AllowMethods config <> "" ->
      middleware_toggles.AllowMethods filled = middleware_toggles.AllowMethods config) /\
     (middleware_toggles.ExposeHeaders config <> "" ->
      middleware_toggles.ExposeHeaders filled = middleware_toggles.ExposeHeaders config) /\
     (middleware_toggles.MaxAge config <> 0 ->
      middleware_toggles.MaxAge filled = middleware_toggles.MaxAge config)) /\
    (middleware_toggles.Next filled = middleware_toggles.Next config /\
     middleware_toggles.AllowOriginsFunc filled = middleware_toggles.AllowOriginsFunc config /\
     middleware_toggles.AllowCredentials filled = middleware_toggles.AllowCredentials config) /\
    middleware_toggles.CORSWithConfig filled = filled /\
    (exists next,
       middleware_toggles.CORS true =
       Some (middleware_toggles.mkCorsConfig (Some next) None
               (middleware_toggles.AllowOrigins
                  (middleware_toggles.CORSWithConfig
                     (middleware_toggles.mkCorsConfig None None "" "" "" false "" 0)))
               (middleware_toggles.AllowMethods
                  (middleware_toggles.CORSWithConfig
                     (middleware_toggles.mkCorsConfig None None "" "" "" false "" 0)))
               (middleware_toggles.AllowHeaders
                  (middleware_toggles.CORSWithConfig
                     (middleware_toggles.mkCorsConfig None None "" "" "" false "" 0)))
               false
               (middleware_toggles.ExposeHeaders
                  (middleware_toggles.CORSWithConfig
                     (middleware_toggles.mkCorsConfig None None "" "" "" false "" 0)))
               (middleware_toggles.MaxAge
                  (middleware_toggles.CORSWithConfig
                     (middleware_toggles.mkCorsConfig None None "" "" "" false "" 0))))).
Proof.
  intros [next func origins methods headers cred expose age]. cbv zeta.
  unfold middleware_toggles.CORSWithConfig. simpl.
  assert (Hlen : forall s, (len s =? 0) = String.eqb s "").
  { intros s. destruct (String.eqb s "") eqn:E.
    - apply String.eqb_eq in E. now subst.
    - apply String.eqb_neq in E. apply Z.eqb_neq. intros H. now apply len_zero in H. }
  rewrite !Hlen.
  destruct (String.eqb origins "") eqn:E1; destruct (String.eqb headers "") eqn:E2;
    destruct (String.eqb methods "") eqn:E3; destruct (String.eqb expose "") eqn:E4;
    destruct (age =? 0) eqn:E5;
    rewrite ?String.eqb_eq, ?String.eqb_neq in *;
    rewrite ?Z.eqb_eq, ?Z.eqb_neq in *;
    simpl; rewrite ?Hlen; simpl;
    repeat match goal with
           | H : ?s <> "" |- context [String.eqb ?s ""] =>
               rewrite (proj2 (String.eqb_neq s "") H)
           | H : ?z <> 0 |- context [?z =? 0] =>
               rewrite (proj2 (Z.eqb_neq z 0) H)
           end;
    (split; [repeat split; (discriminate || assumption || lia)|]);
    (split; [repeat split; intros; (reflexivity || congruence)|]);
    (split; [repeat split|]);
    (split; [reflexivity|]);
    eexists; reflexivity.
Qed.

(** ** The health handlers *)

(** X15.  [Ready] answers 503 exactly when the configuration is present,
    enables the database with a non-empty URL, and no connection was
    handed over; the body then says "degraded" and carries details.
    Otherwise it answers 200 with "ready" and no details.  The timestamp is
    always there. *)
Theorem Ready_degraded_iff :
  forall (h : handlers.HealthHandler) (now : Z),
    let code := fst (handlers.Ready h now) in
    let body := snd (handlers.Ready h now) in
    let degraded :=
      exists c, handlers.cfg h = Some c /\
                config.FeatureFlags.Database (config.Features c) = true /\
                config.DBURL c <> "" /\
                handlers.db h = None in
    (code = 503 <-> degraded) /\
    (code = 200 <-> ~ degraded) /\
    (code = 503 ->
     body !! "status" = Some (fiber.JString "degraded") /\
     body !! "details" = Some (fiber.JString "database required but not connected")) /\
    (code = 200 ->
     body !! "status" = Some (fiber.JString "ready") /\ body !! "details" = None) /\
    body !! "timestamp" = Some (fiber.JTime now).
Proof.
  intros h now. cbv zeta.
  set (degraded := exists c, handlers.cfg h = Some c /\
                     config.FeatureFlags.Database (config.Features c) = true /\
                     config.DBURL c <> "" /\ handlers.db h = None).
  set (b := match handlers.cfg h with None => false | Some _ => true end &&
            config.DatabaseEnabled (handlers.cfg h) &&
            match handlers.db h with None => true | Some _ => false end).
  assert (Hb : b = true <-> degraded).
  { unfold b, degraded, config.DatabaseEnabled.
    destruct h as [[c|] [d|]]; simpl.
    - rewrite andb_false_r. split; [discriminate|].
      intros (c' & _ & _ & _ & H). discriminate.
    - rewrite andb_true_r, andb_true_iff, negb_true_iff, String.eqb_neq. split.
      + intros (Hf & Hu). exists c. repeat split; assumption.
      + intros (c' & [= <-] & Hf & Hu & _). split; assumption.
    - split; [discriminate|]. intros (c' & H & _). discriminate.
    - split; [discriminate|]. intros (c' & H & _). discriminate. }
  unfold handlers.Ready. fold b. destruct b; simpl.
  - split; [|split; [|split; [|split]]].
    + split; [intros _; now apply Hb|reflexivity].
    + split; [discriminate|]. intros H. exfalso. apply H. now apply Hb.
    + intros _. split; vm_compute; reflexivity.
    + discriminate.
    + vm_compute. reflexivity.
  - split; [|split; [|split; [|split]]].
    + split; [discriminate|]. intros H. apply Hb in H. discriminate.
    + split; [|reflexivity]. intros _ H. apply Hb in H. discriminate.
    + discriminate.
    + intros _. split; vm_compute; reflexivity.
    + vm_compute. reflexivity.
Qed.

Lemma empty_no_entry {A : Type} (k : string) :
  is_Some ((∅ : gmap string A) !! k) <-> False.
Proof. split; [apply lookup_empty_is_Some|tauto]. Qed.

Lemma checks_step (b : bool) (key : string) (x : fiber.jvalue)
    (checks : gmap string fiber.jvalue) (k : string) :
  is_Some ((if b then <[key := x]> checks else checks) !! k) <->
  (k = key /\ b = true) \/ is_Some (checks !! k).
Proof.
  destruct b.
  - rewrite lookup_insert_is_Some. split.
    + intros [->|(_ & H)]; [left; split; reflexivity|now right].
    + intros [(-> & _)|H]; [now left|].
      destruct (decide (key = k)); [now left|right; split; assumption].
  - split; [now right|]. intros [(_ & H)|H]; [discriminate|exact H].
Qed.

(** X16.  [featureStatus] lists exactly the enabled features: an entry
    "database", "cache", "auth", "mail", "aws" or "pusher" is present
    exactly when that feature is enabled, no other entry exists, and without
    a configuration the map is empty.  The database entry says "connected"
    when a connection was handed over and "unavailable" otherwise. *)
Theorem featureStatus_lists_enabled :
  forall (env : config.Env) (h : handlers.HealthHandler) (k : string),
    let checks := handlers.featureStatus env h in
    (is_Some (checks !! k) <->
     (k = "database" /\ config.DatabaseEnabled (handlers.cfg h) = true) \/
     (k = "cache" /\ config.CacheEnabled (handlers.cfg h) = true) \/
     (k = "auth" /\ config.AuthEnabled env (handlers.cfg h) = true) \/
     (k = "mail" /\ config.MailEnabled (handlers.cfg h) = true) \/
     (k = "aws" /\ config.AWSEnabled (handlers.cfg h) = true) \/
     (k = "pusher" /\ config.PusherEnabled (handlers.cfg h) = true)) /\
    (handlers.cfg h = None -> checks = ∅) /\
    (config.DatabaseEnabled (handlers.cfg h) = true ->
     checks !! "database" =
       Some (fiber.JString (match handlers.db h with
                            | Some _ => "connected"
                            | None => "unavailable"
                            end))).
Proof.
  intros env [[c|] d] k; cbv zeta; unfold handlers.featureStatus; simpl.
  - split; [|split; [discriminate|]].
    + rewrite !checks_step.
      assert (Hdb : is_Some
                (((if config.DatabaseEnabled (Some c)
                   then match d with
                        | Some _ => <["database" := fiber.JString "connected"]> ∅
                        | None => <["database" := fiber.JString "unavailable"]> ∅
                        end
                   else ∅) : gmap string fiber.jvalue) !! k) <->
              k = "database" /\ config.DatabaseEnabled (Some c) = true).
      { destruct (config.DatabaseEnabled (Some c)).
        - destruct d; rewrite lookup_insert_is_Some, empty_no_entry;
            split; intros H; intuition congruence.
        - rewrite empty_no_entry. split; [tauto|]. intros (_ & H). discriminate. }
      rewrite Hdb. tauto.
    + intros Hdb. rewrite Hdb. destruct d;
        repeat match goal with
               | |- context [if ?b then _ else _] => destruct b
               end;
        repeat (rewrite lookup_insert_ne by discriminate);
        apply lookup_insert_eq.
  - split; [|split; [reflexivity|discriminate]].
    rewrite empty_no_entry. split; [tauto|].
    intros [(_ & H)|[(_ & H)|[(_ & H)|[(_ & H)|[(_ & H)|(_ & H)]]]]]; discriminate.
Qed.

(** ** The names errors are reported under *)

Lemma before_comma_split (s : string) :
  (exists rest, s = (before_comma s ++ rest)%string /\
                (rest = "" \/ exists r, rest = String ","%char r)) /\
  (forall c, In c (list_ascii_of_string (before_comma s)) -> c <> ","%char).
Proof.
  induction s as [|a s ((rest & Hs & Hrest) & Hno)]; simpl.
  - split; [exists ""; split; [reflexivity|now left]|intros c []].
  - destruct (Ascii.eqb a ",") eqn:E.
    + apply Ascii.eqb_eq in E. subst a. split.
      * exists (String "," s). split; [reflexivity|right; now exists s].
      * intros c [].
    + apply Ascii.eqb_neq in E. split.
      * exists rest. split; [rewrite Hs at 1; reflexivity|exact Hrest].
      * simpl. intros c [<-|Hc]; [exact E|now apply Hno].
Qed.

(** X17.  With the validator [NewValidator] builds, a field is reported
    under the name its extractor gives: the json tag up to its first comma,
    which never holds a comma, or the Go identifier when that part is empty
    (no json tag, or one that starts with a comma).  The name is empty only
    for a field without identifier. *)
Theorem NewValidator_reports_json_names :
  forall fld : StructField,
    let name := before_comma (json_tag fld) in
    altName (validate NewValidator) fld = json_name fld /\
    (exists rest, json_tag fld = (name ++ rest)%string /\
                  (rest = "" \/ exists r, rest = String ","%char r)) /\
    (forall c, In c (list_ascii_of_string name) -> c <> ","%char) /\
    (name <> "" -> json_name fld = name) /\
    (name = "" -> json_name fld = Name fld) /\
    (json_name fld = "" <-> Name fld = "" /\ name = "").
Proof.
  intros fld. cbv zeta.
  destruct (before_comma_split (json_tag fld)) as (Hsplit & Hno).
  assert (Hname : (before_comma (json_tag fld) <> "" ->
                   json_name fld = before_comma (json_tag fld)) /\
                  (before_comma (json_tag fld) = "" -> json_name fld = Name fld)).
  { unfold json_name. cbv zeta.
    destruct (String.eqb (before_comma (json_tag fld)) "") eqn:E.
    - apply String.eqb_eq in E. split; [congruence|reflexivity].
    - apply String.eqb_neq in E. split; [reflexivity|congruence]. }
  destruct Hname as (Hn1 & Hn2).
  assert (Hempty : json_name fld = "" <->
                   Name fld = "" /\ before_comma (json_tag fld) = "").
  { destruct (string_dec (before_comma (json_tag fld)) "") as [E|E].
    - rewrite (Hn2 E). tauto.
    - rewrite (Hn1 E). tauto. }
  split; [|split; [exact Hsplit|split; [exact Hno|split; [exact Hn1|split; [exact Hn2|exact Hempty]]]]].
  unfold altName. simpl.
  destruct (len (json_name fld) =? 0) eqn:E; [|reflexivity].
  apply Z.eqb_eq, len_zero in E. rewrite E. now apply Hempty in E as (-> & _).
Qed.
